(** * The contact-form submission handlers of meekertechnologies-site

    A shallow embedding of the two Azure Functions handlers of the site
    (the Graph-mail handler with [escapeHtml], [getAccessToken] and
    [sendEmail], and the logging-only handler of [api/contact/index.js]),
    of the submit handler of the contact form and of [debounce]
    ([assets/js/main.js]), followed by the properties the specification
    states about the handlers and by further properties of the code.

    JavaScript data is modelled as the code sees it:
    - a string is its sequence of UTF-16 code units;
    - a request body is an arbitrary JSON value, read with the usual
      coercions ([ToBoolean], [ToString], property reads);
    - [context.log] and [fetch] are events of a trace, exceptions are an
      error result, and the network is an oracle from requests to outcomes;
    - what the form script does to the page is a trace of assignments, and
      the timers of [debounce] are a table run by an event loop. *)

From Stdlib Require Import List NArith Bool String Ascii DecimalString Lia.
Import ListNotations.
Local Open Scope N_scope.
Set Warnings "-register-all".

(** ** Strings *)

Definition char := N.
Definition jsstring := list char.

(** An ASCII literal of the source, as code units. *)
Definition lit (s : string) : jsstring :=
  map N_of_ascii (list_ascii_of_string s).
Arguments lit : simpl never.

Fixpoint str_eqb (a b : jsstring) : bool :=
  match a, b with
  | [], [] => true
  | x :: a', y :: b' => (x =? y) && str_eqb a' b'
  | _, _ => false
  end.

(** [a.includes(x)] on an array of strings. *)
Definition includes (l : list jsstring) (x : jsstring) : bool :=
  existsb (str_eqb x) l.

(** [s] occurs in [t] as a contiguous run of code units. *)
Definition occurs_in (s t : jsstring) : Prop :=
  exists pre post, t = pre ++ s ++ post.

Definition c_amp : char := 38.
Definition c_lt : char := 60.
Definition c_gt : char := 62.
Definition c_quot : char := 34.
Definition c_apos : char := 39.
Definition c_at : char := 64.
Definition c_dot : char := 46.
Definition c_nl : char := 10.

(** ** Regular expressions

    The fragment of the regular-expression language the handlers use,
    matched by derivatives.  A pattern written [/^...$/] without flags is
    tested against the whole string. *)

Inductive regex :=
| REmpty
| REps
| RClass (p : char -> bool)
| RSeq (r1 r2 : regex)
| RAlt (r1 r2 : regex)
| RStar (r : regex).

(** [r+]. *)
Definition RPlus (r : regex) : regex := RSeq r (RStar r).

(** A single literal character. *)
Definition RChar (c : char) : regex := RClass (N.eqb c).

Fixpoint nullable (r : regex) : bool :=
  match r with
  | REmpty => false
  | REps => true
  | RClass _ => false
  | RSeq r1 r2 => nullable r1 && nullable r2
  | RAlt r1 r2 => nullable r1 || nullable r2
  | RStar _ => true
  end.

Fixpoint deriv (c : char) (r : regex) : regex :=
  match r with
  | REmpty => REmpty
  | REps => REmpty
  | RClass p => if p c then REps else REmpty
  | RSeq r1 r2 =>
      if nullable r1
      then RAlt (RSeq (deriv c r1) r2) (deriv c r2)
      else RSeq (deriv c r1) r2
  | RAlt r1 r2 => RAlt (deriv c r1) (deriv c r2)
  | RStar r1 => RSeq (deriv c r1) (RStar r1)
  end.

Fixpoint matches_whole (r : regex) (s : jsstring) : bool :=
  match s with
  | [] => nullable r
  | c :: s' => matches_whole (deriv c r) s'
  end.

(** The language of a pattern. *)
Inductive matches : regex -> jsstring -> Prop :=
| MEps : matches REps []
| MClass p c : p c = true -> matches (RClass p) [c]
| MSeq r1 r2 s1 s2 :
    matches r1 s1 -> matches r2 s2 -> matches (RSeq r1 r2) (s1 ++ s2)
| MAltL r1 r2 s : matches r1 s -> matches (RAlt r1 r2) s
| MAltR r1 r2 s : matches r2 s -> matches (RAlt r1 r2) s
| MStarNil r : matches (RStar r) []
| MStarApp r s1 s2 :
    matches r s1 -> matches (RStar r) s2 -> matches (RStar r) (s1 ++ s2).

(** [\s]: the WhiteSpace and LineTerminator code units. *)
Definition is_space (c : char) : bool :=
  existsb (N.eqb c)
    [9; 10; 11; 12; 13; 32; 160; 5760; 8232; 8233; 8239; 8287; 12288; 65279]
  || ((8192 <=? c) && (c <=? 8202)).

(** [[^\s@]]. *)
Definition not_space_at (c : char) : bool :=
  negb (is_space c || (c =? c_at)).

(** [/^[^\s@]+@[^\s@]+\.[^\s@]+$/]. *)
Definition emailRegex : regex :=
  RSeq (RPlus (RClass not_space_at))
    (RSeq (RChar c_at)
       (RSeq (RPlus (RClass not_space_at))
          (RSeq (RChar c_dot) (RPlus (RClass not_space_at))))).

(** The syntactic check in the specification's words: one or more
    characters that are neither whitespace nor ['@'], then ['@'], then such
    characters, then ['.'], then such characters. *)
Definition email_pattern (s : jsstring) : Prop :=
  exists a b c,
    s = a ++ c_at :: b ++ c_dot :: c
    /\ a <> [] /\ b <> [] /\ c <> []
    /\ Forall (fun x => not_space_at x = true) a
    /\ Forall (fun x => not_space_at x = true) b
    /\ Forall (fun x => not_space_at x = true) c.

(** ** Exceptions and fallible computations *)

Record exn := Err { error_message : jsstring }.

Inductive result (A : Type) :=
| Ok (a : A)
| Throw (e : exn).
Arguments Ok {A} a.
Arguments Throw {A} e.

Definition rbind {A B} (r : result A) (f : A -> result B) : result B :=
  match r with
  | Ok a => f a
  | Throw e => Throw e
  end.

(** The [TypeError] of [OrdinaryToPrimitive]. *)
Definition type_error : exn :=
  Err (lit "Cannot convert object to primitive value").

(** ** Values *)

(** A JavaScript number is observed by the handlers only through
    [ToBoolean] and [ToString]; both are an interface here. *)
Class Number := {
  number : Type;
  number_truthy : number -> bool;
  number_toString : number -> jsstring
}.

Section Values.
Context `{Number}.

(** What [JSON.parse] can produce, plus [undefined] for absent properties. *)
Inductive value :=
| JUndefined
| JNull
| JBool (b : bool)
| JNum (n : number)
| JStr (s : jsstring)
| JArr (items : list value)
| JObj (props : list (jsstring * value)).

Fixpoint lookup (k : jsstring) (props : list (jsstring * value)) : option value :=
  match props with
  | [] => None
  | (k', v) :: rest => if str_eqb k k' then Some v else lookup k rest
  end.

(** [v.k] for the property names the handlers read ([name], [email],
    [company], [interests], [message], [honeypot], [access_token]): none of
    them is on a prototype, so only an own property of an object answers. *)
Definition get (v : value) (k : jsstring) : value :=
  match v with
  | JObj props => match lookup k props with Some x => x | None => JUndefined end
  | _ => JUndefined
  end.

(** [ToBoolean]. *)
Definition truthy (v : value) : bool :=
  match v with
  | JUndefined | JNull => false
  | JBool b => b
  | JNum n => number_truthy n
  | JStr s => match s with [] => false | _ => true end
  | JArr _ | JObj _ => true
  end.

(** [a || b]. *)
Definition or_else (a b : value) : value := if truthy a then a else b.

(** [ToString].  A parsed object has no callable own property, so an own
    [toString] hides [Object.prototype.toString] and the conversion throws;
    an array goes through [Array.prototype.join] with [","]. *)
Fixpoint to_string (v : value) : result jsstring :=
  match v with
  | JUndefined => Ok (lit "undefined")
  | JNull => Ok (lit "null")
  | JBool true => Ok (lit "true")
  | JBool false => Ok (lit "false")
  | JNum n => Ok (number_toString n)
  | JStr s => Ok s
  | JArr items =>
      (fix join_items (l : list value) : result jsstring :=
         match l with
         | [] => Ok []
         | x :: rest =>
             match
               match x with
               | JUndefined | JNull => Ok []
               | _ => to_string x
               end
             with
             | Throw e => Throw e
             | Ok s =>
                 match rest with
                 | [] => Ok s
                 | _ :: _ =>
                     match join_items rest with
                     | Ok t => Ok (s ++ lit "," ++ t)
                     | Throw e => Throw e
                     end
                 end
             end
         end) items
  | JObj props =>
      match lookup (lit "toString") props with
      | Some _ => Throw type_error
      | None => Ok (lit "[object Object]")
      end
  end.

(** The string an array element contributes to [join]. *)
Definition element_string (x : value) : result jsstring :=
  match x with
  | JUndefined | JNull => Ok []
  | _ => to_string x
  end.

(** [items.join(sep)]. *)
Fixpoint join (sep : jsstring) (items : list value) : result jsstring :=
  match items with
  | [] => Ok []
  | x :: rest =>
      rbind (element_string x) (fun s =>
        match rest with
        | [] => Ok s
        | _ :: _ => rbind (join sep rest) (fun t => Ok (s ++ sep ++ t))
        end)
  end.

(** ** [escapeHtml] *)

Definition htmlEntities : list (char * jsstring) :=
  [ (c_amp, lit "&amp;");
    (c_lt, lit "&lt;");
    (c_gt, lit "&gt;");
    (c_quot, lit "&quot;");
    (c_apos, lit "&#39;") ].

(** [htmlEntities[char]], converted to a string by [replace]. *)
Fixpoint entity (c : char) (table : list (char * jsstring)) : jsstring :=
  match table with
  | [] => lit "undefined"
  | (k, e) :: rest => if c =? k then e else entity c rest
  end.

(** [s.replace(/[cs]/g, f)]: every code unit of the class is replaced. *)
Definition replace_class (cs : list char) (f : char -> jsstring) (s : jsstring)
  : jsstring :=
  flat_map (fun c => if existsb (N.eqb c) cs then f c else [c]) s.

Definition escapeHtml (text : value) : result jsstring :=
  if negb (truthy text) then Ok []
  else
    rbind (to_string text) (fun s =>
      Ok (replace_class [c_amp; c_lt; c_gt; c_quot; c_apos]
            (fun c => entity c htmlEntities) s)).

(** [regex.test(v)]: the argument is converted with [ToString] first. *)
Definition regex_test (r : regex) (v : value) : result bool :=
  rbind (to_string v) (fun s => Ok (matches_whole r s)).

End Values.

(** ** Effects: the log, the network and exceptions *)

Section Handlers.
Context `{Number}.

(** An argument of [context.log]. *)
Inductive logarg :=
| LStr (s : jsstring)
| LVal (v : value)
| LErr (e : exn).

(** The body of a [fetch]: [URLSearchParams.toString()] of a list of
    parameters, or [JSON.stringify] of a value. *)
Inductive fetch_body :=
| FormBody (params : list (jsstring * jsstring))
| JsonBody (v : value).

Record fetch_request := {
  url : jsstring;
  fetch_method : jsstring;
  fetch_headers : list (jsstring * jsstring);
  fetch_body_of : fetch_body
}.

(** A [Response]: [ok], [status], and what [text()] and [json()] give. *)
Record fetch_response := {
  ok : bool;
  status_code : number;
  text : result jsstring;
  json : result value
}.

Inductive event :=
| ELog (args : list logarg)
| EFetch (q : fetch_request).

(** What a run depends on besides the request: [process.env], the answer
    of the network to each request, and the clock. *)
Record environment := {
  env_var : jsstring -> option jsstring;
  fetch : fetch_request -> result fetch_response;
  clock : jsstring
}.

(** A computation: the events it performs, in order, and how it ends. *)
Definition M (A : Type) : Type := (list event * result A)%type.

Definition ret {A} (a : A) : M A := ([], Ok a).

Definition bind {A B} (m : M A) (f : A -> M B) : M B :=
  match m with
  | (t, Ok a) => let (t', r) := f a in (t ++ t', r)
  | (t, Throw e) => (t, Throw e)
  end.

Definition throw {A} (e : exn) : M A := ([], Throw e).

Definition lift {A} (r : result A) : M A := ([], r).

(** [try { m } catch (e) { h e }]. *)
Definition try_catch {A} (m : M A) (h : exn -> M A) : M A :=
  match m with
  | (t, Throw e) => let (t', r) := h e in (t ++ t', r)
  | done => done
  end.

Definition log (args : list logarg) : M unit := ([ELog args], Ok tt).

Definition do_fetch (env : environment) (q : fetch_request) : M fetch_response :=
  ([EFetch q], fetch env q).

Definition trace {A} (m : M A) : list event := fst m.
Definition outcome {A} (m : M A) : result A := snd m.

Notation "x <- m ;; k" := (bind m (fun x => k))
  (at level 61, m at next level, right associativity).
Notation "m ;; k" := (bind m (fun _ => k))
  (at level 61, right associativity).

(** [`${x}`] for an environment variable: [undefined] prints as such. *)
Definition show_var (x : option jsstring) : jsstring :=
  match x with
  | Some s => s
  | None => lit "undefined"
  end.

(** [process.env.X || fallback]. *)
Definition var_or (x : option jsstring) (fallback : jsstring) : jsstring :=
  match x with
  | Some (c :: s) => c :: s
  | _ => fallback
  end.

(** ** [getAccessToken] *)

Definition tokenUrl (env : environment) : jsstring :=
  lit "https://login.microsoftonline.com/"
  ++ show_var (env_var env (lit "AZURE_TENANT_ID"))
  ++ lit "/oauth2/v2.0/token".

Definition token_request (env : environment) : fetch_request :=
  {| url := tokenUrl env;
     fetch_method := lit "POST";
     fetch_headers :=
       [(lit "Content-Type", lit "application/x-www-form-urlencoded")];
     fetch_body_of :=
       FormBody
         [ (lit "client_id", show_var (env_var env (lit "AZURE_CLIENT_ID")));
           (lit "client_secret",
            show_var (env_var env (lit "AZURE_CLIENT_SECRET")));
           (lit "scope", lit "https://graph.microsoft.com/.default");
           (lit "grant_type", lit "client_credentials") ] |}.

Definition getAccessToken (env : environment) : M value :=
  response <- do_fetch env (token_request env) ;;
  if negb (ok response) then
    errorText <- lift (text response) ;;
    throw (Err (lit "Failed to get access token: "
                ++ number_toString (status_code response)
                ++ lit " - " ++ errorText))
  else
    data <- lift (json response) ;;
    match data with
    | JUndefined | JNull =>
        throw (Err (lit "Cannot read properties of null (reading 'access_token')"))
    | _ => ret (get data (lit "access_token"))
    end.

(** ** [sendEmail] *)

Definition graphUrl (fromEmail : jsstring) : jsstring :=
  lit "https://graph.microsoft.com/v1.0/users/" ++ fromEmail ++ lit "/sendMail".

Definition emailData (toEmail subject htmlBody : jsstring) : value :=
  JObj
    [ (lit "message",
       JObj
         [ (lit "subject", JStr subject);
           (lit "body",
            JObj [ (lit "contentType", JStr (lit "HTML"));
                   (lit "content", JStr htmlBody) ]);
           (lit "toRecipients",
            JArr [ JObj [ (lit "emailAddress",
                           JObj [ (lit "address", JStr toEmail) ]) ] ]) ]);
      (lit "saveToSentItems", JBool false) ].

Definition mail_request (bearer fromEmail toEmail subject htmlBody : jsstring)
  : fetch_request :=
  {| url := graphUrl fromEmail;
     fetch_method := lit "POST";
     fetch_headers :=
       [ (lit "Authorization", lit "Bearer " ++ bearer);
         (lit "Content-Type", lit "application/json") ];
     fetch_body_of := JsonBody (emailData toEmail subject htmlBody) |}.

Definition sendEmail (env : environment) (accessToken : value)
    (fromEmail toEmail subject htmlBody : jsstring) : M bool :=
  bearer <- lift (to_string accessToken) ;;
  response <- do_fetch env (mail_request bearer fromEmail toEmail subject htmlBody) ;;
  if negb (ok response) then
    errorText <- lift (text response) ;;
    throw (Err (lit "Failed to send email: "
                ++ number_toString (status_code response)
                ++ lit " - " ++ errorText))
  else ret true.

(** ** Requests and responses *)

Record request := {
  method : jsstring;
  headers : list (jsstring * jsstring);
  body : value
}.

(** [context.res]: a status, the response headers (none when the handler
    gives no [headers] object) and the body, when there is one. *)
Record response := {
  status : N;
  res_headers : list (jsstring * jsstring);
  res_body : option value
}.

(** [h[k]] on a headers object. *)
Fixpoint header (k : jsstring) (h : list (jsstring * jsstring)) : option jsstring :=
  match h with
  | [] => None
  | (k', v) :: rest => if str_eqb k k' then Some v else header k rest
  end.

(** A field of [const { ... } = req.body || {}]. *)
Definition submitted (req : request) (k : jsstring) : value :=
  get (or_else (body req) (JObj [])) k.

(** ** CORS configuration *)

Definition allowedOrigins : list jsstring :=
  [ lit "https://meekertechnologies.com";
    lit "https://www.meekertechnologies.com";
    lit "https://witty-hill-016919110.1.azurestaticapps.net" ].

(** [req.headers.origin || req.headers.Origin]. *)
Definition origin (req : request) : option jsstring :=
  match header (lit "origin") (headers req) with
  | Some (c :: s) => Some (c :: s)
  | _ => header (lit "Origin") (headers req)
  end.

Definition corsOrigin (req : request) : jsstring :=
  match origin req with
  | Some o => if includes allowedOrigins o then o else hd [] allowedOrigins
  | None => hd [] allowedOrigins
  end.

Definition corsHeaders (req : request) : list (jsstring * jsstring) :=
  [ (lit "Access-Control-Allow-Origin", corsOrigin req);
    (lit "Access-Control-Allow-Methods", lit "POST, OPTIONS");
    (lit "Access-Control-Allow-Headers", lit "Content-Type") ].

(** [{ 'Content-Type': 'application/json', ...corsHeaders }]. *)
Definition json_headers (req : request) : list (jsstring * jsstring) :=
  (lit "Content-Type", lit "application/json") :: corsHeaders req.

(** ** Response bodies *)

Definition thanks : jsstring :=
  lit "Thank you for your inquiry. We will be in touch within 24 hours.".

Definition success_body : value :=
  JObj [ (lit "success", JBool true); (lit "message", JStr thanks) ].

Definition delayed_body : value :=
  JObj [ (lit "success", JBool true);
         (lit "message", JStr thanks);
         (lit "note", JStr (lit "Email delivery may be delayed.")) ].

Definition required_error : jsstring :=
  lit "Name, email, and message are required".

Definition invalid_email_error : jsstring := lit "Invalid email format".

Definition generic_error : jsstring :=
  lit "Unable to process your request. Please try again later.".

Definition failure_body (msg : jsstring) : value :=
  JObj [ (lit "success", JBool false); (lit "error", JStr msg) ].

(** ** The Graph-mail handler *)

(** The [interestsText] of the handler. *)
Definition interests_text (interests : value) : result jsstring :=
  match interests with
  | JArr (x :: rest) => join (lit ", ") (x :: rest)
  | _ => Ok (lit "Not specified")
  end.

Definition not_provided : value := JStr (lit "Not provided").

(** The [context.log] lines of the submission, a heading and five fields;
    each template literal
    converts its field with [ToString] before the line is logged. *)
Definition log_submission (name email company : value)
    (interestsText : jsstring) (message : value) : M unit :=
  log [LStr (lit "Contact form submission:")] ;;
  n <- lift (to_string name) ;;
  log [LStr (lit "  Name: " ++ n)] ;;
  e <- lift (to_string email) ;;
  log [LStr (lit "  Email: " ++ e)] ;;
  c <- lift (to_string (or_else company not_provided)) ;;
  log [LStr (lit "  Company: " ++ c)] ;;
  log [LStr (lit "  Interests: " ++ interestsText)] ;;
  m <- lift (to_string message) ;;
  log [LStr (lit "  Message: " ++ m)].

(** A line of the HTML template: a line break and sixteen spaces of
    indentation before the markup. *)
Definition template_line (markup : jsstring) : jsstring :=
  c_nl :: repeat 32 16 ++ markup.

Definition subject_of (safeInterests safeName : jsstring) : jsstring :=
  lit "[Meeker Technologies] " ++ safeInterests ++ lit " - from " ++ safeName.

Definition htmlBody_of
    (safeName safeEmail safeCompany safeInterests safeMessage : jsstring)
  : jsstring :=
  template_line (lit "<h2>New Contact Form Submission</h2>")
  ++ template_line
       (lit "<p><strong>From:</strong> " ++ safeName
        ++ lit " (<a href=" ++ [c_quot] ++ lit "mailto:" ++ safeEmail
        ++ [c_quot] ++ lit ">" ++ safeEmail ++ lit "</a>)</p>")
  ++ template_line (lit "<p><strong>Company:</strong> " ++ safeCompany ++ lit "</p>")
  ++ template_line
       (lit "<p><strong>Interested in:</strong> " ++ safeInterests ++ lit "</p>")
  ++ template_line (lit "<hr>")
  ++ template_line (lit "<p><strong>Message:</strong></p>")
  ++ template_line (lit "<p>" ++ safeMessage ++ lit "</p>")
  ++ template_line (lit "<hr>")
  ++ template_line (lit "<p><em>Sent from meekertechnologies.com contact form</em></p>")
  ++ c_nl :: repeat 32 12.

(** [s.replace(/\n/g, '<br>')]. *)
Definition br_newlines (s : jsstring) : jsstring :=
  replace_class [c_nl] (fun _ => lit "<br>") s.

Definition default_mailbox : jsstring := lit "adam@adammeeker.com".

(** [process.env.SENDER_EMAIL || 'adam@adammeeker.com'], and the same for
    [OWNER_EMAIL]. *)
Definition senderEmail (env : environment) : jsstring :=
  var_or (env_var env (lit "SENDER_EMAIL")) default_mailbox.

Definition ownerEmail (env : environment) : jsstring :=
  var_or (env_var env (lit "OWNER_EMAIL")) default_mailbox.

(** The guarded step: the body of the inner [try]. *)
Definition deliver (env : environment) (hdrs : list (jsstring * jsstring))
    (name email company : value) (interestsText : jsstring) (message : value)
    (senderEmail ownerEmail : jsstring) : M response :=
  accessToken <- getAccessToken env ;;
  safeName <- lift (escapeHtml name) ;;
  safeEmail <- lift (escapeHtml email) ;;
  safeCompany <- lift (escapeHtml (or_else company not_provided)) ;;
  safeInterests <- lift (escapeHtml (JStr interestsText)) ;;
  escaped <- lift (escapeHtml message) ;;
  let safeMessage := br_newlines escaped in
  let subject := subject_of safeInterests safeName in
  let htmlBody :=
    htmlBody_of safeName safeEmail safeCompany safeInterests safeMessage in
  sendEmail env accessToken senderEmail ownerEmail subject htmlBody ;;
  log [LStr (lit "Email sent successfully")] ;;
  ret {| status := 200; res_headers := hdrs; res_body := Some success_body |}.

(** The inner [catch (emailError)] block. *)
Definition email_failed (hdrs : list (jsstring * jsstring)) (emailError : exn)
  : M response :=
  log [LStr (lit "Email sending failed:"); LStr (error_message emailError)] ;;
  ret {| status := 200; res_headers := hdrs; res_body := Some delayed_body |}.

(** The body of the outer [try]. *)
Definition process (env : environment) (req : request)
    (hdrs : list (jsstring * jsstring)) : M response :=
  let name := submitted req (lit "name") in
  let email := submitted req (lit "email") in
  let company := submitted req (lit "company") in
  let interests := submitted req (lit "interests") in
  let message := submitted req (lit "message") in
  let honeypot := submitted req (lit "honeypot") in
  if truthy honeypot then
    log [LStr (lit "Honeypot triggered - likely spam")] ;;
    ret {| status := 200; res_headers := hdrs; res_body := Some success_body |}
  else if negb (truthy name) || negb (truthy email) || negb (truthy message) then
    ret {| status := 400; res_headers := hdrs;
           res_body := Some (failure_body required_error) |}
  else
    matched <- lift (regex_test emailRegex email) ;;
    if negb matched then
      ret {| status := 400; res_headers := hdrs;
             res_body := Some (failure_body invalid_email_error) |}
    else
      interestsText <- lift (interests_text interests) ;;
      log_submission name email company interestsText message ;;
      try_catch
        (deliver env hdrs name email company interestsText message
           (senderEmail env) (ownerEmail env))
        (email_failed hdrs).

(** [error.message || error]. *)
Definition message_or_error (error : exn) : logarg :=
  match error_message error with
  | [] => LErr error
  | m => LStr m
  end.

(** The outer [catch (error)] block. *)
Definition processing_failed (hdrs : list (jsstring * jsstring)) (error : exn)
  : M response :=
  log [LStr (lit "Error processing contact form:"); message_or_error error] ;;
  ret {| status := 500; res_headers := hdrs;
         res_body := Some (failure_body generic_error) |}.

(** [module.exports] of the Graph-mail function. *)
Definition handler (env : environment) (req : request) : M response :=
  log [LStr (lit "Contact form submission received")] ;;
  if str_eqb (method req) (lit "OPTIONS") then
    ret {| status := 204; res_headers := corsHeaders req; res_body := None |}
  else
    try_catch (process env req (json_headers req))
      (processing_failed (json_headers req)).

(** ** The handler of [api/contact/index.js] *)

Definition contact_handler (env : environment) (req : request) : M response :=
  log [LStr (lit "Contact form submission received")] ;;
  let name := submitted req (lit "name") in
  let email := submitted req (lit "email") in
  let company := submitted req (lit "company") in
  let interests := submitted req (lit "interests") in
  let message := submitted req (lit "message") in
  if negb (truthy name) || negb (truthy email) || negb (truthy message) then
    ret {| status := 400; res_headers := [];
           res_body := Some (JObj [ (lit "error", JStr required_error) ]) |}
  else
    matched <- lift (regex_test emailRegex email) ;;
    if negb matched then
      ret {| status := 400; res_headers := [];
             res_body := Some (JObj [ (lit "error", JStr invalid_email_error) ]) |}
    else
      log [ LStr (lit "Contact form data:");
            LVal (JObj [ (lit "name", name);
                         (lit "email", email);
                         (lit "company", or_else company not_provided);
                         (lit "interests", or_else interests (JArr []));
                         (lit "message", message);
                         (lit "timestamp", JStr (clock env)) ]) ] ;;
      ret {| status := 200;
             res_headers := [ (lit "Content-Type", lit "application/json") ];
             res_body := Some success_body |}.

(** ** Vocabulary of the properties *)

(** The requests a run sent to the network, in order. *)
Fixpoint fetches (t : list event) : list fetch_request :=
  match t with
  | [] => []
  | EFetch q :: rest => q :: fetches rest
  | ELog _ :: rest => fetches rest
  end.

(** The HTTP status a run answers with, if it answers. *)
Definition answered (m : M response) : option N :=
  match outcome m with
  | Ok r => Some (status r)
  | Throw _ => None
  end.

(** The body a run answers with, if it answers with one. *)
Definition res_body_of (m : M response) : option value :=
  match outcome m with
  | Ok r => res_body r
  | Throw _ => None
  end.

(** The headers a run answers with, if it answers. *)
Definition res_headers_of (m : M response)
  : option (list (jsstring * jsstring)) :=
  match outcome m with
  | Ok r => Some (res_headers r)
  | Throw _ => None
  end.

(** One of [name], [email], [message] is absent or empty (falsy). *)
Definition missing_required (req : request) : bool :=
  negb (truthy (submitted req (lit "name")))
  || negb (truthy (submitted req (lit "email")))
  || negb (truthy (submitted req (lit "message"))).

(** The e-mail field, read as a string, has the shape of the syntactic
    check. *)
Definition email_well_formed (req : request) : Prop :=
  exists s, to_string (submitted req (lit "email")) = Ok s /\ email_pattern s.

(** A valid submission: empty honeypot, the three required fields
    present, and a well-formed e-mail address. *)
Definition valid_submission (req : request) : Prop :=
  truthy (submitted req (lit "honeypot")) = false
  /\ missing_required req = false
  /\ email_well_formed req.

(** The network rejects the request or answers it with a status that is
    not [ok]: what makes [getAccessToken] and [sendEmail] throw. *)
Definition fetch_fails (env : environment) (q : fetch_request) : Prop :=
  match fetch env q with
  | Throw _ => True
  | Ok r => ok r = false
  end.

Definition throws {A} (m : M A) : Prop := exists e, outcome m = Throw e.

(** A conversion to a string that does not throw. *)
Definition converts (r : result jsstring) : bool :=
  match r with
  | Ok _ => true
  | Throw _ => false
  end.

(** The conversions of the fields between the validation and the guarded
    step all succeed: the join of the interests and the four template
    literals of the log lines. *)
Definition convertible (req : request) : bool :=
  converts (interests_text (submitted req (lit "interests")))
  && converts (to_string (submitted req (lit "name")))
  && converts (to_string (submitted req (lit "email")))
  && converts (to_string (or_else (submitted req (lit "company")) not_provided))
  && converts (to_string (submitted req (lit "message"))).

End Handlers.

(** ** The specification's reading of [escapeHtml]

    The input with each occurrence of the ampersand, the angle brackets,
    the double quote and the apostrophe replaced by its HTML entity;
    written from the specification, to be compared with [escapeHtml]. *)

Definition spec_entity (c : char) : jsstring :=
  if c =? c_amp then lit "&amp;"
  else if c =? c_lt then lit "&lt;"
  else if c =? c_gt then lit "&gt;"
  else if c =? c_quot then lit "&quot;"
  else if c =? c_apos then lit "&#39;"
  else [c].

Definition spec_escape (s : jsstring) : jsstring := flat_map spec_entity s.

(** The characters that open markup or close an attribute value. *)
Definition markup_chars : list char := [c_lt; c_gt; c_quot; c_apos].

Definition markup_free (s : jsstring) : Prop :=
  forall c, In c markup_chars -> ~ In c s.

(** ** Vocabulary of the runs *)

Section Runs.
Context `{Number}.

(** The log lines of a submission whose name, e-mail, company, interests
    and message read [n], [e], [c], [it] and [m]. *)
Definition submission_log (n e c it m : jsstring) : list event :=
  [ ELog [LStr (lit "Contact form submission:")];
    ELog [LStr (lit "  Name: " ++ n)];
    ELog [LStr (lit "  Email: " ++ e)];
    ELog [LStr (lit "  Company: " ++ c)];
    ELog [LStr (lit "  Interests: " ++ it)];
    ELog [LStr (lit "  Message: " ++ m)] ].

(** The mail request of a submission with these readings. *)
Definition submission_mail (env : environment) (bearer n e c it m : jsstring)
  : fetch_request :=
  mail_request bearer (senderEmail env) (ownerEmail env)
    (subject_of (spec_escape it) (spec_escape n))
    (htmlBody_of (spec_escape n) (spec_escape e) (spec_escape c)
       (spec_escape it) (br_newlines (spec_escape m))).

(** The e-mail field converts to a string that fails the syntactic check. *)
Definition email_ill_formed (req : request) : Prop :=
  exists s, to_string (submitted req (lit "email")) = Ok s /\ ~ email_pattern s.

End Runs.

(** Strings put one after the other with a separator between them. *)
Definition separated (sep : jsstring) (l : list jsstring) : jsstring :=
  match l with
  | [] => []
  | x :: rest => x ++ flat_map (fun s => sep ++ s) rest
  end.

(** The message of the mail, character by character: a line break becomes
    a [br] element, the five special characters their entities. *)
Definition message_markup (c : char) : jsstring :=
  if c =? c_nl then lit "<br>" else spec_entity c.

(** ** The form script ([assets/js/main.js])

    The submit handler of the contact form.  The page is assumed to have
    the elements the script looks up (the submit button with its two
    labels and the status line); what the script does to them is recorded
    as a trace, in the order of the source. *)

(** [encodeURIComponent]: the unreserved characters stay, every other
    code point becomes the percent-escaped bytes of its UTF-8 encoding,
    and a lone surrogate is a [URIError]. *)
Definition uri_error : exn := Err (lit "URI malformed").

Definition is_alnum (c : char) : bool :=
  ((48 <=? c) && (c <=? 57)) || ((65 <=? c) && (c <=? 90))
  || ((97 <=? c) && (c <=? 122)).

(** The marks [- _ . ! ~ * ' ( )]. *)
Definition uri_unreserved (c : char) : bool :=
  is_alnum c || existsb (N.eqb c) [45; 95; 46; 33; 126; 42; 39; 40; 41].

Definition is_high_surrogate (c : char) : bool := (55296 <=? c) && (c <=? 56319).
Definition is_low_surrogate (c : char) : bool := (56320 <=? c) && (c <=? 57343).

Definition code_point (hi lo : char) : N :=
  (hi - 55296) * 1024 + (lo - 56320) + 65536.

Definition utf8 (cp : N) : list N :=
  if cp <? 128 then [cp]
  else if cp <? 2048 then [192 + cp / 64; 128 + cp mod 64]
  else if cp <? 65536 then
    [224 + cp / 4096; 128 + (cp / 64) mod 64; 128 + cp mod 64]
  else
    [240 + cp / 262144; 128 + (cp / 4096) mod 64; 128 + (cp / 64) mod 64;
     128 + cp mod 64].

Definition hex_digit (n : N) : char := if n <? 10 then 48 + n else 55 + n.

(** [%XX], in upper-case hexadecimal. *)
Definition percent (byte : N) : jsstring :=
  [37; hex_digit (byte / 16); hex_digit (byte mod 16)].

Fixpoint encodeURIComponent (s : jsstring) : result jsstring :=
  match s with
  | [] => Ok []
  | c :: rest =>
      if uri_unreserved c then
        rbind (encodeURIComponent rest) (fun t => Ok (c :: t))
      else if is_low_surrogate c then Throw uri_error
      else if is_high_surrogate c then
        match rest with
        | d :: rest' =>
            if is_low_surrogate d then
              rbind (encodeURIComponent rest') (fun t =>
                Ok (flat_map percent (utf8 (code_point c d)) ++ t))
            else Throw uri_error
        | [] => Throw uri_error
        end
      else
        rbind (encodeURIComponent rest) (fun t =>
          Ok (flat_map percent (utf8 c) ++ t))
  end.

(** A string of UTF-16 code units. *)
Definition code_units (s : jsstring) : Prop := Forall (fun c => c < 65536) s.

(** Every surrogate of the string is half of a pair. *)
Fixpoint well_paired (s : jsstring) : bool :=
  match s with
  | [] => true
  | c :: rest =>
      if is_low_surrogate c then false
      else if is_high_surrogate c then
        match rest with
        | d :: rest' => is_low_surrogate d && well_paired rest'
        | [] => false
        end
      else well_paired rest
  end.

(** A character of an encoded component. *)
Definition uri_safe (c : char) : bool := uri_unreserved c || (c =? 37).

Section FormScript.
Context `{Number}.

(** What [new FormData(contactForm)] holds of the fields the script reads
    ([get] gives [null] for a field the form does not have, [getAll] the
    values of the checked interests), and the value of the honeypot input
    named [website], when the page has one. *)
Record form := {
  form_name : option jsstring;
  form_email : option jsstring;
  form_company : option jsstring;
  form_interest : list jsstring;
  form_message : option jsstring;
  form_website : option jsstring
}.

Definition entry (x : option jsstring) : value :=
  match x with
  | Some s => JStr s
  | None => JNull
  end.

(** The [data] object of the script. *)
Definition form_data (f : form) : value :=
  JObj [ (lit "name", entry (form_name f));
         (lit "email", entry (form_email f));
         (lit "company", entry (form_company f));
         (lit "interests", JArr (map JStr (form_interest f)));
         (lit "message", entry (form_message f)) ].

Definition contact_request (f : form) : fetch_request :=
  {| url := lit "/api/contact";
     fetch_method := lit "POST";
     fetch_headers := [ (lit "Content-Type", lit "application/json") ];
     fetch_body_of := JsonBody (form_data f) |}.

Inductive element := FormStatus | SubmitBtn | BtnText | BtnLoading.

Inductive ui_event :=
| SetText (el : element) (s : jsstring)
| SetClass (el : element) (s : jsstring)
| SetDisplay (el : element) (s : jsstring)
| SetDisabled (el : element) (b : bool)
| ResetForm
| Post (q : fetch_request)
| Navigate (href : jsstring).

(** The text of the fallback mail. *)
Definition fallback_subject (data : value) : result jsstring :=
  rbind (to_string (get data (lit "name"))) (fun n =>
    Ok (lit "Meeker Technologies Inquiry from " ++ n)).

Definition fallback_body (data : value) : result jsstring :=
  rbind (to_string (get data (lit "name"))) (fun n =>
  rbind (to_string (get data (lit "email"))) (fun e =>
  rbind (to_string (or_else (get data (lit "company")) not_provided)) (fun c =>
  rbind (match get data (lit "interests") with
         | JArr items => join (lit ", ") items
         | _ => Throw (Err (lit "data.interests.join is not a function"))
         end) (fun joined =>
  rbind (to_string (or_else (JStr joined) (JStr (lit "Not specified")))) (fun i =>
  rbind (to_string (or_else (get data (lit "message"))
                      (JStr (lit "No message provided")))) (fun m =>
    Ok (lit "Name: " ++ n ++ [c_nl]
        ++ lit "Email: " ++ e ++ [c_nl]
        ++ lit "Company: " ++ c ++ [c_nl]
        ++ lit "Interests: " ++ i ++ [c_nl; c_nl]
        ++ lit "Message:" ++ [c_nl] ++ m))))))).

(** The address the fallback navigates to. *)
Definition mailto (data : value) : result jsstring :=
  rbind (fallback_subject data) (fun s =>
  rbind (encodeURIComponent s) (fun subject =>
  rbind (fallback_body data) (fun b =>
  rbind (encodeURIComponent b) (fun body =>
    Ok (lit "mailto:hello@meekertechnologies.com?subject=" ++ subject
        ++ lit "&body=" ++ body))))).

(** The statements that re-enable the button. *)
Definition reenable : list ui_event :=
  [ SetDisabled SubmitBtn false; SetDisplay BtnText (lit "inline");
    SetDisplay BtnLoading (lit "none") ].

(** The submit handler, for a network that answers [net]. *)
Definition submit (net : fetch_request -> result fetch_response) (f : form)
  : list ui_event * result unit :=
  if truthy (entry (form_website f)) then
    ([ SetText FormStatus (lit "Thank you for your message!");
       SetClass FormStatus (lit "form-status success");
       ResetForm ], Ok tt)
  else
    let busy :=
      [ SetDisabled SubmitBtn true; SetDisplay BtnText (lit "none");
        SetDisplay BtnLoading (lit "inline");
        SetClass FormStatus (lit "form-status");
        SetDisplay FormStatus (lit "none") ] in
    let data := form_data f in
    let fallback :=
      match mailto data with
      | Ok href =>
          ([ Navigate href;
             SetText FormStatus (lit "Opening your email client...");
             SetClass FormStatus (lit "form-status success") ] ++ reenable,
           Ok tt)
      | Throw e => ([], Throw e)
      end in
    let (after, r) :=
      match net (contact_request f) with
      | Ok response =>
          if ok response then
            ([ SetText FormStatus
                 (lit "Thank you! We'll be in touch within 24 hours.");
               SetClass FormStatus (lit "form-status success");
               ResetForm ] ++ reenable, Ok tt)
          else fallback
      | Throw _ => fallback
      end in
    (busy ++ Post (contact_request f) :: after, r).

(** The requests and the navigations of a run of the script. *)
Fixpoint posts (t : list ui_event) : list fetch_request :=
  match t with
  | [] => []
  | Post q :: rest => q :: posts rest
  | _ :: rest => posts rest
  end.

Fixpoint navigations (t : list ui_event) : list jsstring :=
  match t with
  | [] => []
  | Navigate h :: rest => h :: navigations rest
  | _ :: rest => navigations rest
  end.

End FormScript.

Section FormRuns.
Context `{Number}.

(** The server answered the request of the script with an [ok] status. *)
Definition accepted_by (net : fetch_request -> result fetch_response) (f : form)
  : bool :=
  match net (contact_request f) with
  | Ok response => ok response
  | Throw _ => false
  end.

Definition field_units (x : option jsstring) : Prop :=
  match x with
  | Some s => code_units s
  | None => True
  end.

(** Every value of the form is a string of UTF-16 code units. *)
Definition form_code_units (f : form) : Prop :=
  field_units (form_name f) /\ field_units (form_email f)
  /\ field_units (form_company f) /\ Forall code_units (form_interest f)
  /\ field_units (form_message f).

(** The events of a trace that say whether the button is disabled. *)
Fixpoint disablings (t : list ui_event) : list bool :=
  match t with
  | [] => []
  | SetDisabled SubmitBtn b :: rest => b :: disablings rest
  | _ :: rest => disablings rest
  end.

End FormRuns.

(** ** [debounce] ([assets/js/main.js])

    The timers of the page are a table of pending timers, each with the
    identifier [setTimeout] returned, the time at which it is due and the
    arguments its callback captured; [func] is observed through the list
    of the arguments it was called with.  Timers run between tasks only,
    with the event loop idle between the tasks of a history, and the calls
    are not made from timer callbacks nested more than five deep (whose
    delay the platform raises to four milliseconds). *)

Section Debounce.
Context {A : Type} (wait : N).

(** The choice of the event loop when a timer is due at the very time a
    task starts: [eager i] when it runs the timer [i] before the task. *)
Variable eager : N -> bool.

Record timer := { timer_id : N; due : N; timer_args : A }.

Record page := {
  time_now : N;
  next_id : N;
  pending : list timer;
  timeout : option N;
  calls : list A
}.

(** [clearTimeout(id)]; an identifier that is [undefined] clears nothing. *)
Definition clearTimeout (id : option N) (p : page) : page :=
  match id with
  | None => p
  | Some i =>
      {| time_now := time_now p; next_id := next_id p;
         pending := filter (fun x => negb (timer_id x =? i)) (pending p);
         timeout := timeout p; calls := calls p |}
  end.

(** The delay the platform gives a timer: the number of milliseconds is
    converted to a signed 32-bit integer, and a negative delay is zero. *)
Definition delay : N :=
  let w := wait mod 4294967296 in
  if w <? 2147483648 then w else 0.

(** [setTimeout(later, wait)], where [later] captured the arguments [a]. *)
Definition setTimeout (a : A) (p : page) : N * page :=
  (next_id p,
   {| time_now := time_now p; next_id := next_id p + 1;
      pending := pending p
                 ++ [{| timer_id := next_id p; due := time_now p + delay;
                        timer_args := a |}];
      timeout := timeout p; calls := calls p |}).

(** The function [debounce] returns, called with the arguments [a]. *)
Definition executedFunction (a : A) (p : page) : page :=
  let p1 := clearTimeout (timeout p) p in
  let (id, p2) := setTimeout a p1 in
  {| time_now := time_now p2; next_id := next_id p2; pending := pending p2;
     timeout := Some id; calls := calls p2 |}.

(** The callback [later]: it clears the timer and calls [func]. *)
Definition later (a : A) (p : page) : page :=
  let p1 := clearTimeout (timeout p) p in
  {| time_now := time_now p1; next_id := next_id p1; pending := pending p1;
     timeout := timeout p1; calls := calls p1 ++ [a] |}.

(** The pending timer that runs next: the earliest due, and among those
    the one registered first. *)
Fixpoint earliest (l : list timer) : option timer :=
  match l with
  | [] => None
  | x :: rest =>
      match earliest rest with
      | Some y => if due y <? due x then Some y else Some x
      | None => Some x
      end
  end.

(** The event loop up to the time [t]: it runs the timers that are due,
    one after the other, each removed from the table before its callback
    runs. *)
Fixpoint run_due (fuel : nat) (t : N) (p : page) : page :=
  match fuel with
  | O => p
  | S fuel' =>
      match earliest (pending p) with
      | Some x =>
          if due x <=? t then
            run_due fuel' t
              (later (timer_args x)
                 {| time_now := N.max (time_now p) (due x); next_id := next_id p;
                    pending :=
                      filter (fun y => negb (timer_id y =? timer_id x))
                        (pending p);
                    timeout := timeout p; calls := calls p |})
          else p
      | None => p
      end
  end.

(** Time passes until [t], and the event loop has run what was due. *)
Definition advance (t : N) (p : page) : page :=
  let p' := run_due (List.length (pending p)) t p in
  {| time_now := N.max (time_now p') t; next_id := next_id p'; pending := pending p';
     timeout := timeout p'; calls := calls p' |}.

(** The timer runs before a task that starts at the time [t]: it was due
    earlier, or it is due at [t] and the event loop takes it first. *)
Definition runs_before (t : N) (x : timer) : bool :=
  (due x <? t) || ((due x =? t) && eager (timer_id x)).

(** The event loop before a task that starts at the time [t]. *)
Fixpoint run_before (fuel : nat) (t : N) (p : page) : page :=
  match fuel with
  | O => p
  | S fuel' =>
      match earliest (pending p) with
      | Some x =>
          if runs_before t x then
            run_before fuel' t
              (later (timer_args x)
                 {| time_now := N.max (time_now p) (due x); next_id := next_id p;
                    pending :=
                      filter (fun y => negb (timer_id y =? timer_id x))
                        (pending p);
                    timeout := timeout p; calls := calls p |})
          else p
      | None => p
      end
  end.

(** A task starts at the time [t]. *)
Definition begin_task (t : N) (p : page) : page :=
  let p' := run_before (List.length (pending p)) t p in
  {| time_now := N.max (time_now p') t; next_id := next_id p'; pending := pending p';
     timeout := timeout p'; calls := calls p' |}.

(** The page when [debounce] returns: no timer, [timeout] undefined. *)
Definition fresh_page : page :=
  {| time_now := 0; next_id := 1; pending := []; timeout := None; calls := [] |}.

(** A call of the debounced function: its time, its arguments, and
    whether the task that made the previous call makes it too, in which
    case no timer runs between the two. *)
Record call := { call_time : N; call_args : A; same_task : bool }.

(** The page when the call is made. *)
Definition arrive (c : call) (p : page) : page :=
  if same_task c then
    {| time_now := N.max (time_now p) (call_time c); next_id := next_id p;
       pending := pending p; timeout := timeout p; calls := calls p |}
  else begin_task (call_time c) p.

(** A history of the page: the calls of the debounced function, in order. *)
Fixpoint history (l : list call) (p : page) : page :=
  match l with
  | [] => p
  | c :: rest => history rest (executedFunction (call_args c) (arrive c p))
  end.

(** At most one timer is pending, and it is the one [timeout] names. *)
Definition tidy (p : page) : Prop :=
  match pending p with
  | [] => True
  | [x] => timeout p = Some (timer_id x)
  | _ => False
  end.




End Debounce.

(** ** Concrete numbers, networks and requests *)

(** The non-negative integers as JavaScript numbers: zero is falsy and
    [ToString] is the decimal numeral. *)
Definition natural_numbers : Number := {|
  number := N;
  number_truthy := fun n => negb (n =? 0);
  number_toString := fun n => lit (NilZero.string_of_uint (N.to_uint n))
|}.

Section Samples.
Existing Instance natural_numbers.

(** A property of a JSON object literal. *)
Definition field (k : string) (v : value) : jsstring * value := (lit k, v).

Definition obj (props : list (jsstring * value)) : value := JObj props.

Definition str (s : string) : value := JStr (lit s).

(** A POST request with a JSON body and no [Origin] header. *)
Definition post (b : value) : request :=
  {| method := lit "POST"; headers := []; body := b |}.

(** An environment with no variables set, whose network gives one answer
    to the form-encoded request and one to the JSON request. *)
Definition network (token mail : result fetch_response) : environment :=
  {| env_var := fun _ => None;
     fetch := fun q =>
       match fetch_body_of q with
       | FormBody _ => token
       | JsonBody _ => mail
       end;
     clock := lit "2024-01-01T00:00:00.000Z" |}.

Definition ok_response (data : value) : fetch_response :=
  {| ok := true; status_code := 200; text := Ok []; json := Ok data |}.

Definition refused : fetch_response :=
  {| ok := false; status_code := 401; text := Ok (lit "denied"); json := Ok JNull |}.

Definition unreachable : result fetch_response :=
  Throw (Err (lit "fetch failed")).

Definition granted : result fetch_response :=
  Ok (ok_response (obj [field "access_token" (str "t0k3n")])).

Definition accepted_mail : result fetch_response := Ok (ok_response JNull).

(** A complete submission, with markup in the name and a line break in
    the message. *)
Definition sample_submission : request :=
  post (obj [ field "name" (str "Ann <Lee>");
              field "email" (str "ann@example.com");
              field "company" (str "Lee & Co");
              field "interests" (JArr [str "AI"; str "Cloud"]);
              field "message" (JStr (lit "Hello" ++ [c_nl] ++ lit "there")) ]).

(** A submission of a robot: only the honeypot is filled. *)
Definition robot_submission : request :=
  post (obj [ field "honeypot" (str "http://spam.example") ]).

Definition nameless_submission : request :=
  post (obj [ field "email" (str "ann@example.com");
              field "message" (str "Hello") ]).

Definition misaddressed_submission : request :=
  post (obj [ field "name" (str "Ann"); field "email" (str "ann at example.com");
              field "message" (str "Hello") ]).

(** A submission whose name is an object with an own [toString]. *)
Definition unprintable_submission : request :=
  post (obj [ field "name" (obj [field "toString" JNull]);
              field "email" (str "a@b.c"); field "message" (str "hi") ]).

(** A preflight from an origin that is not allowed. *)
Definition foreign_preflight : request :=
  {| method := lit "OPTIONS";
     headers := [ (lit "origin", lit "https://evil.example") ];
     body := JUndefined |}.

(** The complete submission, sent from the site itself. *)
Definition site_submission : request :=
  {| method := lit "POST";
     headers := [ (lit "Origin", lit "https://www.meekertechnologies.com") ];
     body := body sample_submission |}.

(** A form as a visitor filled it in, with no honeypot value. *)
Definition sample_form : form :=
  {| form_name := Some (lit "Ann & Lee");
     form_email := Some (lit "ann@example.com");
     form_company := Some [];
     form_interest := [lit "AI"; lit "Cloud"];
     form_message := Some (lit "Hello?");
     form_website := Some [] |}.

(** A network that answers every request with the status 500. *)
Definition failing_server (q : fetch_request) : result fetch_response :=
  Ok {| ok := false; status_code := 500; text := Ok []; json := Ok JNull |}.

(** A preflight from the site itself. *)
Definition site_preflight : request :=
  {| method := lit "OPTIONS";
     headers := [ (lit "Origin", lit "https://www.meekertechnologies.com") ];
     body := JUndefined |}.

(** A submission whose e-mail is an object with an own [toString]. *)
Definition unaddressed_submission : request :=
  post (obj [ field "name" (str "Ann");
              field "email" (obj [field "toString" JNull]);
              field "message" (str "Hello") ]).

(** A token response whose token is an object with an own [toString]. *)
Definition opaque_token : value := obj [field "toString" JNull].

Definition granted_opaque : result fetch_response :=
  Ok (ok_response (obj [field "access_token" opaque_token])).

End Samples.

(** * Properties *)

(** ** Strings *)

Lemma str_eqb_refl (a : jsstring) : str_eqb a a = true.
Proof.
  induction a as [|x a IH]; simpl; [reflexivity|].
  now rewrite N.eqb_refl, IH.
Qed.

Lemma str_eqb_eq (a b : jsstring) : str_eqb a b = true <-> a = b.
Proof.
  split; [|intros ->; apply str_eqb_refl].
  revert b; induction a as [|x a IH]; intros [|y b]; simpl; try discriminate.
  - reflexivity.
  - intros E. apply andb_true_iff in E as [E1 E2].
    apply N.eqb_eq in E1. apply IH in E2. congruence.
Qed.

Lemma includes_In (l : list jsstring) (x : jsstring) :
  includes l x = true <-> In x l.
Proof.
  unfold includes. rewrite existsb_exists. split.
  - intros (y & Hy & E). apply str_eqb_eq in E. now subst.
  - intros Hx. exists x. split; [assumption|apply str_eqb_refl].
Qed.

(** ** The derivative matcher computes the language of a pattern *)

Lemma matches_nil_nullable (r : regex) (s : jsstring) :
  matches r s -> s = [] -> nullable r = true.
Proof.
  induction 1; intros E; simpl; try reflexivity; try discriminate.
  - apply app_eq_nil in E as [-> ->]. now rewrite IHmatches1, IHmatches2.
  - now rewrite IHmatches.
  - rewrite IHmatches by assumption. apply orb_true_r.
Qed.

Lemma nullable_matches_nil (r : regex) : nullable r = true -> matches r [].
Proof.
  induction r; simpl; intros E; try discriminate.
  - constructor.
  - apply andb_true_iff in E as [E1 E2].
    change (@nil char) with (@nil char ++ []). constructor; auto.
  - apply orb_true_iff in E as [E|E]; [apply MAltL|apply MAltR]; auto.
  - constructor.
Qed.

Lemma deriv_sound (r : regex) :
  forall c s, matches (deriv c r) s -> matches r (c :: s).
Proof.
  induction r; simpl; intros c s M.
  - inversion M.
  - inversion M.
  - destruct (p c) eqn:E; inversion M; subst. now constructor.
  - destruct (nullable r1) eqn:E.
    + inversion M as [| | | ? ? ? M1 | ? ? ? M2 | |]; subst.
      * inversion M1; subst.
        change (c :: ?a ++ ?b) with ((c :: a) ++ b). constructor; auto.
      * change (c :: s) with ([] ++ c :: s).
        constructor; [now apply nullable_matches_nil | auto].
    + inversion M; subst.
      change (c :: ?a ++ ?b) with ((c :: a) ++ b). constructor; auto.
  - inversion M; subst; [apply MAltL|apply MAltR]; auto.
  - inversion M; subst.
    change (c :: ?a ++ ?b) with ((c :: a) ++ b). constructor; auto.
Qed.

Lemma deriv_complete (r : regex) (t : jsstring) :
  matches r t -> forall c s, t = c :: s -> matches (deriv c r) s.
Proof.
  induction 1; intros c0 s0 E; simpl; try discriminate.
  - injection E as -> <-. rewrite H. constructor.
  - destruct s1 as [|x s1]; simpl in E.
    + subst s2. rewrite (matches_nil_nullable r1 [] H eq_refl).
      apply MAltR. now apply IHmatches2.
    + injection E as -> <-.
      assert (M : matches (RSeq (deriv c0 r1) r2) (s1 ++ s2))
        by (constructor; auto).
      destruct (nullable r1); [now apply MAltL | exact M].
  - apply MAltL. now apply IHmatches.
  - apply MAltR. now apply IHmatches.
  - destruct s1 as [|x s1]; simpl in E.
    + now apply IHmatches2.
    + injection E as -> <-. constructor; auto.
Qed.

Lemma matches_whole_spec (s : jsstring) :
  forall r, matches_whole r s = true <-> matches r s.
Proof.
  induction s as [|c s IH]; intros r; simpl.
  - split; [apply nullable_matches_nil|].
    intros M. now apply (matches_nil_nullable r []).
  - rewrite IH. split; [apply deriv_sound|].
    intros M. now apply (deriv_complete r (c :: s)).
Qed.

(** ** The e-mail pattern *)

Lemma star_class_Forall (p : char -> bool) (r : regex) (s : jsstring) :
  matches r s -> r = RStar (RClass p) -> Forall (fun x => p x = true) s.
Proof.
  induction 1; intros E; try discriminate.
  - constructor.
  - injection E as ->. apply Forall_app. split; [|auto].
    inversion H; subst. constructor; [assumption|constructor].
Qed.

Lemma Forall_star_class (p : char -> bool) (s : jsstring) :
  Forall (fun x => p x = true) s -> matches (RStar (RClass p)) s.
Proof.
  induction 1 as [|c s Hc _ IH]; [constructor|].
  change (c :: s) with ([c] ++ s). constructor; [now constructor|assumption].
Qed.

Lemma class_plus_spec (p : char -> bool) (s : jsstring) :
  matches (RPlus (RClass p)) s <->
  s <> [] /\ Forall (fun x => p x = true) s.
Proof.
  unfold RPlus. split.
  - intros M. inversion M as [| |? ? s1 s2 M1 M2| | | |]; subst.
    inversion M1; subst. split; [discriminate|].
    constructor; [assumption|]. now apply (star_class_Forall p (RStar (RClass p))).
  - intros [Hne Hall]. destruct s as [|c s]; [congruence|].
    inversion Hall; subst.
    change (c :: s) with ([c] ++ s).
    constructor; [now constructor | now apply Forall_star_class].
Qed.

Lemma char_spec (c : char) (s : jsstring) : matches (RChar c) s <-> s = [c].
Proof.
  unfold RChar. split.
  - intros M. inversion M as [|? ? E| | | | |]; subst.
    apply N.eqb_eq in E. now subst.
  - intros ->. constructor. apply N.eqb_refl.
Qed.

(** The pattern of the source accepts exactly the strings the
    specification describes. *)
Lemma emailRegex_spec (s : jsstring) :
  matches_whole emailRegex s = true <-> email_pattern s.
Proof.
  rewrite matches_whole_spec. unfold emailRegex, email_pattern. split.
  - intros M.
    inversion M as [| |? ? a s1 Ma M1| | | |]; subst.
    inversion M1 as [| |? ? x s2 Mx M2| | | |]; subst.
    inversion M2 as [| |? ? b s3 Mb M3| | | |]; subst.
    inversion M3 as [| |? ? y c My Mc| | | |]; subst.
    apply char_spec in Mx, My. subst x y.
    apply class_plus_spec in Ma, Mb, Mc.
    exists a, b, c. simpl. tauto.
  - intros (a & b & c & -> & Ha & Hb & Hc & Fa & Fb & Fc).
    constructor; [apply class_plus_spec; tauto|].
    change (c_at :: b ++ c_dot :: c) with ([c_at] ++ b ++ [c_dot] ++ c).
    constructor; [now apply char_spec|].
    constructor; [apply class_plus_spec; tauto|].
    constructor; [now apply char_spec|].
    apply class_plus_spec; tauto.
Qed.

Example emailRegex_accepts : matches_whole emailRegex (lit "ann@example.com") = true.
Proof. reflexivity. Qed.

Example emailRegex_rejects_space :
  matches_whole emailRegex (lit "ann smith@example.com") = false.
Proof. reflexivity. Qed.

Example emailRegex_rejects_no_dot : matches_whole emailRegex (lit "ann@example") = false.
Proof. reflexivity. Qed.

(** ** [escapeHtml] *)

Lemma entity_spec (c : char) :
  (if existsb (N.eqb c) [c_amp; c_lt; c_gt; c_quot; c_apos]
   then entity c htmlEntities else [c]) = spec_entity c.
Proof.
  unfold spec_entity, htmlEntities, entity. simpl existsb.
  destruct (c =? c_amp); [reflexivity|].
  destruct (c =? c_lt); [reflexivity|].
  destruct (c =? c_gt); [reflexivity|].
  destruct (c =? c_quot); [reflexivity|].
  destruct (c =? c_apos); reflexivity.
Qed.

Lemma replace_class_spec (s : jsstring) :
  replace_class [c_amp; c_lt; c_gt; c_quot; c_apos]
    (fun c => entity c htmlEntities) s = spec_escape s.
Proof.
  unfold replace_class, spec_escape.
  apply flat_map_ext. intros c. apply entity_spec.
Qed.

Lemma spec_entity_markup_free (c : char) : markup_free (spec_entity c).
Proof.
  intros x Hx. unfold spec_entity.
  destruct (c =? c_amp) eqn:E1;
    [|destruct (c =? c_lt) eqn:E2;
      [|destruct (c =? c_gt) eqn:E3;
        [|destruct (c =? c_quot) eqn:E4;
          [|destruct (c =? c_apos) eqn:E5]]]].
  6: { apply N.eqb_neq in E2, E3, E4, E5.
       intros [<-|[]]. simpl in Hx. intuition congruence. }
  all: vm_compute in Hx |- *;
       intuition (subst; discriminate).
Qed.

Lemma spec_escape_markup_free (s : jsstring) : markup_free (spec_escape s).
Proof.
  intros x Hx Hin. unfold spec_escape in Hin.
  apply in_flat_map in Hin as (c & _ & Hc).
  exact (spec_entity_markup_free c x Hx Hc).
Qed.

Lemma markup_free_app (a b : jsstring) :
  markup_free a -> markup_free b -> markup_free (a ++ b).
Proof.
  intros Ha Hb c Hc Hin. apply in_app_or in Hin as [Hin|Hin].
  - exact (Ha c Hc Hin).
  - exact (Hb c Hc Hin).
Qed.

Section Properties.
Context `{Number}.

Lemma escapeHtml_string (s : jsstring) :
  escapeHtml (JStr s) = Ok (spec_escape s).
Proof.
  unfold escapeHtml. destruct s as [|c s]; [reflexivity|].
  cbn [truthy negb to_string rbind]. now rewrite replace_class_spec.
Qed.

(** C7.  On a string, [escapeHtml] returns the input with each ampersand,
    angle bracket, double quote and apostrophe replaced by its HTML entity,
    and the result contains no angle bracket, double quote or apostrophe;
    on every falsy input it returns the empty string. *)
Theorem escapeHtml_spec :
  (forall s : jsstring,
     escapeHtml (JStr s) = Ok (spec_escape s) /\ markup_free (spec_escape s))
  /\ (forall v : value, truthy v = false -> escapeHtml v = Ok []).
Proof.
  split.
  - intros s. split; [apply escapeHtml_string | apply spec_escape_markup_free].
  - intros v Hv. unfold escapeHtml. now rewrite Hv.
Qed.

(** ** Runs of computations *)

Lemma bind_run {A B} (m : M A) (f : A -> M B) :
  bind m f =
    match outcome m with
    | Ok a => (trace m ++ trace (f a), outcome (f a))
    | Throw e => (trace m, Throw e)
    end.
Proof.
  destruct m as [t [a|e]]; simpl; [|reflexivity].
  now destruct (f a).
Qed.

Lemma try_catch_run {A} (m : M A) (h : exn -> M A) :
  try_catch m h =
    match outcome m with
    | Ok a => (trace m, Ok a)
    | Throw e => (trace m ++ trace (h e), outcome (h e))
    end.
Proof.
  destruct m as [t [a|e]]; simpl; [reflexivity|].
  now destruct (h e).
Qed.

Lemma bind_lift_ok {A B} (a : A) (f : A -> M B) : bind (lift (Ok a)) f = f a.
Proof. unfold bind, lift. now destruct (f a). Qed.

Lemma bind_lift_throw {A B} (e : exn) (f : A -> M B) :
  bind (lift (Throw e)) f = ([], Throw e).
Proof. reflexivity. Qed.

Lemma bind_log {B} (args : list logarg) (f : unit -> M B) :
  bind (log args) f = (ELog args :: trace (f tt), outcome (f tt)).
Proof. unfold bind, log. now destruct (f tt). Qed.

Lemma bind_ok {A B} (m : M A) (f : A -> M B) (b : B) :
  outcome (bind m f) = Ok b ->
  exists a, outcome m = Ok a /\ outcome (f a) = Ok b.
Proof.
  rewrite bind_run. destruct (outcome m) as [a|e]; [|discriminate].
  intros E. now exists a.
Qed.

Lemma fetches_app (a b : list event) : fetches (a ++ b) = fetches a ++ fetches b.
Proof.
  induction a as [|[args|q] a IH]; simpl; [reflexivity|assumption|].
  now rewrite IH.
Qed.

Lemma not_options (req : request) :
  method req <> lit "OPTIONS" -> str_eqb (method req) (lit "OPTIONS") = false.
Proof.
  intros Hm. destruct (str_eqb (method req) (lit "OPTIONS")) eqn:E; [|reflexivity].
  apply str_eqb_eq in E. contradiction.
Qed.

(** ** The validation steps *)

Lemma regex_test_pattern (v : value) (s : jsstring) :
  to_string v = Ok s ->
  (regex_test emailRegex v = Ok true <-> email_pattern s)
  /\ (regex_test emailRegex v = Ok false <-> ~ email_pattern s).
Proof.
  intros Hs. unfold regex_test. rewrite Hs. cbn [rbind].
  rewrite <- emailRegex_spec.
  destruct (matches_whole emailRegex s); split; split; congruence.
Qed.

Lemma regex_test_well_formed (req : request) :
  regex_test emailRegex (submitted req (lit "email")) = Ok true
  <-> email_well_formed req.
Proof.
  unfold email_well_formed. split.
  - intros E. unfold regex_test in E.
    destruct (to_string (submitted req (lit "email"))) as [s|e] eqn:Hs;
      [|discriminate].
    exists s. split; [reflexivity|].
    apply emailRegex_spec. cbn [rbind] in E. congruence.
  - intros (s & Hs & Hp). now apply (regex_test_pattern _ s Hs).
Qed.

Lemma regex_test_ill_formed (req : request) :
  regex_test emailRegex (submitted req (lit "email")) = Ok false ->
  ~ email_well_formed req.
Proof.
  intros E (s & Hs & Hp).
  destruct (regex_test_pattern _ s Hs) as [[_ Hok] _].
  rewrite (Hok Hp) in E. discriminate.
Qed.

(** ** [getAccessToken] and [sendEmail] *)

Lemma getAccessToken_trace (env : environment) :
  trace (getAccessToken env) = [EFetch (token_request env)].
Proof.
  unfold getAccessToken, do_fetch. rewrite bind_run. cbn [outcome trace fst snd].
  destruct (fetch env (token_request env)) as [r|e]; [|reflexivity].
  destruct (ok r); cbn [negb].
  - destruct (json r) as [d|e]; [|reflexivity]. rewrite bind_lift_ok.
    destruct d; reflexivity.
  - destruct (text r) as [d|e]; reflexivity.
Qed.

Lemma getAccessToken_fails (env : environment) :
  fetch_fails env (token_request env) -> throws (getAccessToken env).
Proof.
  unfold fetch_fails, throws, getAccessToken, do_fetch. rewrite bind_run.
  cbn [outcome trace fst snd].
  destruct (fetch env (token_request env)) as [r|e]; [|intros _; now exists e].
  intros ->. cbn [negb].
  destruct (text r) as [d|e]; eexists; reflexivity.
Qed.

Lemma sendEmail_run (env : environment) (tok : value)
    (bearer from to subject html : jsstring) :
  to_string tok = Ok bearer ->
  trace (sendEmail env tok from to subject html)
    = [EFetch (mail_request bearer from to subject html)]
  /\ (fetch_fails env (mail_request bearer from to subject html) ->
      throws (sendEmail env tok from to subject html))
  /\ (~ fetch_fails env (mail_request bearer from to subject html) ->
      outcome (sendEmail env tok from to subject html) = Ok true).
Proof.
  intros Hb. unfold sendEmail, fetch_fails, throws. rewrite Hb, bind_lift_ok.
  unfold do_fetch. rewrite bind_run. cbn [outcome trace fst snd].
  destruct (fetch env _) as [r|e].
  - destruct (ok r); cbn [negb].
    + repeat split; try reflexivity. discriminate.
    + destruct (text r) as [d|e];
        (repeat split; [eexists; reflexivity | congruence]).
  - repeat split; [eexists; reflexivity | tauto].
Qed.

Lemma sendEmail_unprintable_token (env : environment) (tok : value) (e : exn)
    (from to subject html : jsstring) :
  to_string tok = Throw e ->
  sendEmail env tok from to subject html = ([], Throw e).
Proof. intros Hb. unfold sendEmail. now rewrite Hb. Qed.

(** ** The log lines of a submission *)

Lemma log_submission_run (name email company message : value) (it : jsstring) :
  fetches (trace (log_submission name email company it message)) = []
  /\ (outcome (log_submission name email company it message) = Ok tt <->
      converts (to_string name) && converts (to_string email)
      && converts (to_string (or_else company not_provided))
      && converts (to_string message) = true).
Proof.
  unfold log_submission. rewrite bind_log.
  destruct (to_string name) as [n|e1];
    [rewrite bind_lift_ok, bind_log | cbn; split; [reflexivity|split; discriminate]].
  destruct (to_string email) as [e|e2];
    [rewrite bind_lift_ok, bind_log | cbn; split; [reflexivity|split; discriminate]].
  destruct (to_string (or_else company not_provided)) as [c|e3];
    [rewrite bind_lift_ok, !bind_log | cbn; split; [reflexivity|split; discriminate]].
  destruct (to_string message) as [m|e4];
    [rewrite bind_lift_ok | cbn; split; [reflexivity|split; discriminate]].
  cbn. split; [reflexivity|split; reflexivity].
Qed.

(** ** The guarded step *)

Lemma escapeHtml_truthy (v : value) (s : jsstring) :
  truthy v = true -> to_string v = Ok s -> escapeHtml v = Ok (spec_escape s).
Proof.
  intros Hv Hs. unfold escapeHtml. rewrite Hv, Hs. cbn [negb rbind].
  now rewrite replace_class_spec.
Qed.

Lemma escapeHtml_ok (v : value) (escaped : jsstring) :
  truthy v = true ->
  escapeHtml v = Ok escaped ->
  exists s, to_string v = Ok s /\ escaped = spec_escape s.
Proof.
  intros Hv. unfold escapeHtml. rewrite Hv. cbn [negb].
  destruct (to_string v) as [s|err]; [|discriminate].
  cbn [rbind]. rewrite replace_class_spec. intros [= <-]. now exists s.
Qed.

Lemma or_else_not_provided_truthy (company : value) :
  truthy (or_else company not_provided) = true.
Proof.
  unfold or_else. destruct (truthy company) eqn:E; [assumption|reflexivity].
Qed.

(** Whatever the step does, an answer of [deliver] is the success response. *)
Lemma deliver_answer (env : environment) (hdrs : list (jsstring * jsstring))
    (name email company message : value) (it from to : jsstring) (r : response) :
  outcome (deliver env hdrs name email company it message from to) = Ok r ->
  r = {| status := 200; res_headers := hdrs; res_body := Some success_body |}.
Proof.
  unfold deliver. intros E.
  repeat (apply bind_ok in E as (? & _ & E); cbv beta in E).
  cbn in E. congruence.
Qed.

Lemma guarded_outcome (env : environment) (hdrs : list (jsstring * jsstring))
    (name email company message : value) (it from to : jsstring) :
  outcome (try_catch (deliver env hdrs name email company it message from to)
             (email_failed hdrs)) =
    Ok {| status := 200; res_headers := hdrs;
          res_body :=
            Some match outcome (deliver env hdrs name email company it message
                                  from to) with
                 | Ok _ => success_body
                 | Throw _ => delayed_body
                 end |}.
Proof.
  rewrite try_catch_run.
  destruct (outcome (deliver _ _ _ _ _ _ _ _ _)) as [r|err] eqn:E;
    cbn [outcome snd].
  - now rewrite (deliver_answer _ _ _ _ _ _ _ _ _ r E).
  - reflexivity.
Qed.

Lemma guarded_fetches (env : environment) (hdrs : list (jsstring * jsstring))
    (name email company message : value) (it from to : jsstring) :
  fetches (trace (try_catch (deliver env hdrs name email company it message from to)
                    (email_failed hdrs)))
  = fetches (trace (deliver env hdrs name email company it message from to)).
Proof.
  rewrite try_catch_run.
  destruct (outcome (deliver _ _ _ _ _ _ _ _ _)); cbn [trace fst]; [reflexivity|].
  rewrite fetches_app. cbn. apply app_nil_r.
Qed.

Section Guarded.
Variables (env : environment) (hdrs : list (jsstring * jsstring)).
Variables (name email company message : value) (it n e c m from to : jsstring).
Hypothesis Tn : truthy name = true.
Hypothesis Te : truthy email = true.
Hypothesis Tm : truthy message = true.
Hypothesis Sn : to_string name = Ok n.
Hypothesis Se : to_string email = Ok e.
Hypothesis Sc : to_string (or_else company not_provided) = Ok c.
Hypothesis Sm : to_string message = Ok m.

Local Abbreviation D := (deliver env hdrs name email company it message from to).
Local Abbreviation subject := (subject_of (spec_escape it) (spec_escape n)).
Local Abbreviation html :=
  (htmlBody_of (spec_escape n) (spec_escape e) (spec_escape c)
     (spec_escape it) (br_newlines (spec_escape m))).

(** With fields that convert to strings, the step is the token request,
    the mail request built from the escaped fields, and the last log line. *)
Lemma deliver_run :
  D = bind (getAccessToken env) (fun accessToken =>
        bind (sendEmail env accessToken from to subject html)
          (fun _ =>
             bind (log [LStr (lit "Email sent successfully")]) (fun _ =>
               ret {| status := 200; res_headers := hdrs;
                      res_body := Some success_body |}))).
Proof.
  unfold deliver.
  rewrite (escapeHtml_truthy name n Tn Sn), (escapeHtml_truthy email e Te Se).
  rewrite (escapeHtml_truthy _ c (or_else_not_provided_truthy company) Sc).
  rewrite (escapeHtml_truthy message m Tm Sm), escapeHtml_string.
  rewrite !bind_run.
  destruct (outcome (getAccessToken env)) as [tok|err]; [|reflexivity].
  now rewrite !bind_lift_ok.
Qed.

Lemma deliver_fetches :
  fetches (trace D) =
    token_request env ::
      match outcome (getAccessToken env) with
      | Ok tok =>
          match to_string tok with
          | Ok bearer => [mail_request bearer from to subject html]
          | Throw _ => []
          end
      | Throw _ => []
      end.
Proof.
  rewrite deliver_run, bind_run.
  destruct (outcome (getAccessToken env)) as [tok|err] eqn:E;
    cbn [trace fst]; [|now rewrite getAccessToken_trace].
  rewrite fetches_app, getAccessToken_trace. cbn [fetches app]. f_equal.
  rewrite bind_run.
  destruct (to_string tok) as [bearer|err] eqn:Eb.
  - destruct (sendEmail_run env tok bearer from to subject html Eb) as (Ht & _).
    destruct (outcome (sendEmail env tok from to subject html));
      cbn [trace fst]; rewrite ?fetches_app, Ht; reflexivity.
  - now rewrite (sendEmail_unprintable_token env tok err).
Qed.

Lemma deliver_throws_token : throws (getAccessToken env) -> throws D.
Proof.
  intros [err E]. exists err. now rewrite deliver_run, bind_run, E.
Qed.

Lemma deliver_throws_mail (tok : value) (bearer : jsstring) :
  outcome (getAccessToken env) = Ok tok ->
  to_string tok = Ok bearer ->
  fetch_fails env (mail_request bearer from to subject html) ->
  throws D.
Proof.
  intros E Eb Hf.
  destruct (sendEmail_run env tok bearer from to subject html Eb)
    as (_ & Hthrow & _).
  destruct (Hthrow Hf) as [err Herr]. exists err.
  now rewrite deliver_run, bind_run, E, bind_run, Herr.
Qed.

Lemma deliver_throws_send (tok : value) :
  outcome (getAccessToken env) = Ok tok ->
  throws (sendEmail env tok from to subject html) ->
  throws D.
Proof.
  intros E [err Herr]. exists err.
  now rewrite deliver_run, bind_run, E, bind_run, Herr.
Qed.

Lemma deliver_succeeds (tok : value) (bearer : jsstring) :
  outcome (getAccessToken env) = Ok tok ->
  to_string tok = Ok bearer ->
  ~ fetch_fails env (mail_request bearer from to subject html) ->
  outcome D =
    Ok {| status := 200; res_headers := hdrs; res_body := Some success_body |}.
Proof.
  intros E Eb Hf.
  destruct (sendEmail_run env tok bearer from to subject html Eb)
    as (_ & _ & Hok).
  now rewrite deliver_run, bind_run, E, bind_run, (Hok Hf), bind_log.
Qed.

End Guarded.

(** ** The body of the outer [try] *)

(** What [process] does with a submission that passed the validation. *)
Local Abbreviation accepted env req hdrs :=
  (bind (lift (interests_text (submitted req (lit "interests"))))
     (fun interestsText =>
        bind (log_submission (submitted req (lit "name"))
                (submitted req (lit "email")) (submitted req (lit "company"))
                interestsText (submitted req (lit "message")))
          (fun _ =>
             try_catch
               (deliver env hdrs (submitted req (lit "name"))
                  (submitted req (lit "email")) (submitted req (lit "company"))
                  interestsText (submitted req (lit "message"))
                  (senderEmail env) (ownerEmail env))
               (email_failed hdrs)))).

Lemma process_honeypot (env : environment) (req : request)
    (hdrs : list (jsstring * jsstring)) :
  truthy (submitted req (lit "honeypot")) = true ->
  process env req hdrs =
    ([ELog [LStr (lit "Honeypot triggered - likely spam")]],
     Ok {| status := 200; res_headers := hdrs; res_body := Some success_body |}).
Proof. intros Hh. unfold process. now rewrite Hh. Qed.

Lemma process_missing (env : environment) (req : request)
    (hdrs : list (jsstring * jsstring)) :
  truthy (submitted req (lit "honeypot")) = false ->
  missing_required req = true ->
  process env req hdrs =
    ([], Ok {| status := 400; res_headers := hdrs;
               res_body := Some (failure_body required_error) |}).
Proof.
  intros Hh Hm. unfold process. unfold missing_required in Hm. now rewrite Hh, Hm.
Qed.

Lemma process_checked (env : environment) (req : request)
    (hdrs : list (jsstring * jsstring)) :
  truthy (submitted req (lit "honeypot")) = false ->
  missing_required req = false ->
  process env req hdrs =
    match regex_test emailRegex (submitted req (lit "email")) with
    | Ok true => accepted env req hdrs
    | Ok false =>
        ([], Ok {| status := 400; res_headers := hdrs;
                   res_body := Some (failure_body invalid_email_error) |})
    | Throw e => ([], Throw e)
    end.
Proof.
  intros Hh Hm. unfold process. unfold missing_required in Hm. rewrite Hh, Hm.
  destruct (regex_test emailRegex (submitted req (lit "email"))) as [[|]|e];
    [now rewrite bind_lift_ok | now rewrite bind_lift_ok | reflexivity].
Qed.

Lemma process_valid (env : environment) (req : request)
    (hdrs : list (jsstring * jsstring)) :
  valid_submission req -> process env req hdrs = accepted env req hdrs.
Proof.
  intros (Hh & Hm & He). rewrite (process_checked env req hdrs Hh Hm).
  apply regex_test_well_formed in He. now rewrite He.
Qed.

Lemma missing_required_false (req : request) :
  missing_required req = false ->
  truthy (submitted req (lit "name")) = true
  /\ truthy (submitted req (lit "email")) = true
  /\ truthy (submitted req (lit "message")) = true.
Proof.
  unfold missing_required.
  destruct (truthy (submitted req (lit "name")));
    destruct (truthy (submitted req (lit "email")));
    destruct (truthy (submitted req (lit "message"))); cbn; intuition congruence.
Qed.

(** With convertible fields the accepted submission reaches the guarded
    step, which settles both the requests sent and the answer. *)
Lemma accepted_convertible (env : environment) (req : request)
    (hdrs : list (jsstring * jsstring)) :
  convertible req = true ->
  exists it n e c m,
    interests_text (submitted req (lit "interests")) = Ok it
    /\ to_string (submitted req (lit "name")) = Ok n
    /\ to_string (submitted req (lit "email")) = Ok e
    /\ to_string (or_else (submitted req (lit "company")) not_provided) = Ok c
    /\ to_string (submitted req (lit "message")) = Ok m
    /\ fetches (trace (accepted env req hdrs)) =
         fetches (trace (deliver env hdrs (submitted req (lit "name"))
                           (submitted req (lit "email"))
                           (submitted req (lit "company")) it
                           (submitted req (lit "message"))
                           (senderEmail env) (ownerEmail env)))
    /\ outcome (accepted env req hdrs) =
         outcome (try_catch
                    (deliver env hdrs (submitted req (lit "name"))
                       (submitted req (lit "email"))
                       (submitted req (lit "company")) it
                       (submitted req (lit "message"))
                       (senderEmail env) (ownerEmail env))
                    (email_failed hdrs)).
Proof.
  intros Hc.
  assert (Hlog : forall it,
            outcome (log_submission (submitted req (lit "name"))
                       (submitted req (lit "email"))
                       (submitted req (lit "company")) it
                       (submitted req (lit "message"))) = Ok tt).
  { intros it. apply log_submission_run. unfold convertible in Hc.
    destruct (converts (interests_text _)); [exact Hc | discriminate]. }
  unfold convertible in Hc.
  destruct (interests_text (submitted req (lit "interests"))) as [it|] eqn:Ei;
    [|discriminate].
  destruct (to_string (submitted req (lit "name"))) as [n|] eqn:En;
    [|discriminate].
  destruct (to_string (submitted req (lit "email"))) as [e|] eqn:Ee;
    [|discriminate].
  destruct (to_string (or_else (submitted req (lit "company")) not_provided))
    as [c|] eqn:Ec; [|discriminate].
  destruct (to_string (submitted req (lit "message"))) as [m|] eqn:Em;
    [|discriminate].
  exists it, n, e, c, m. repeat (split; [reflexivity|]).
  rewrite bind_lift_ok, bind_run, (Hlog it). cbn [trace outcome fst snd].
  split; [|reflexivity].
  rewrite fetches_app, guarded_fetches.
  now rewrite (proj1 (log_submission_run _ _ _ _ it)).
Qed.

(** A field that does not convert ends the accepted submission with an
    exception before any request is sent. *)
Lemma accepted_unconvertible (env : environment) (req : request)
    (hdrs : list (jsstring * jsstring)) :
  convertible req = false ->
  fetches (trace (accepted env req hdrs)) = []
  /\ throws (accepted env req hdrs).
Proof.
  intros Hc. unfold convertible in Hc.
  destruct (interests_text (submitted req (lit "interests"))) as [it|err];
    [|split; [reflexivity | now exists err]].
  rewrite bind_lift_ok, bind_run.
  destruct (log_submission_run (submitted req (lit "name"))
              (submitted req (lit "email")) (submitted req (lit "company"))
              (submitted req (lit "message")) it) as [Hf Ho].
  destruct (outcome (log_submission _ _ _ it _)) as [[]|err] eqn:E.
  - cbn [converts andb] in Hc. rewrite (proj1 Ho eq_refl) in Hc. discriminate.
  - cbn [trace fst outcome snd]. split; [exact Hf | now exists err].
Qed.

Lemma process_answer (env : environment) (req : request)
    (hdrs : list (jsstring * jsstring)) (r : response) :
  outcome (process env req hdrs) = Ok r ->
  res_headers r = hdrs /\ (status r = 200 \/ status r = 400).
Proof.
  destruct (truthy (submitted req (lit "honeypot"))) eqn:Hh.
  { rewrite (process_honeypot env req hdrs Hh). intros [= <-]. cbn. tauto. }
  destruct (missing_required req) eqn:Hm.
  { rewrite (process_missing env req hdrs Hh Hm). intros [= <-]. cbn. tauto. }
  rewrite (process_checked env req hdrs Hh Hm).
  destruct (regex_test emailRegex (submitted req (lit "email"))) as [[|]|e];
    [|intros [= <-]; cbn; tauto|discriminate].
  destruct (convertible req) eqn:Hc.
  - destruct (accepted_convertible env req hdrs Hc)
      as (it & n & e & c & m & _ & _ & _ & _ & _ & _ & ->).
    rewrite guarded_outcome. intros [= <-]. cbn. tauto.
  - destruct (accepted_unconvertible env req hdrs Hc) as [_ [err ->]].
    discriminate.
Qed.

(** ** The handler *)

Lemma handler_preflight (env : environment) (req : request) :
  method req = lit "OPTIONS" ->
  handler env req =
    ([ELog [LStr (lit "Contact form submission received")]],
     Ok {| status := 204; res_headers := corsHeaders req; res_body := None |}).
Proof. intros Hm. unfold handler. rewrite Hm. reflexivity. Qed.

(** The handler on a request that is not a preflight. *)
Lemma handler_run (env : environment) (req : request) :
  method req <> lit "OPTIONS" ->
  handler env req =
    match outcome (process env req (json_headers req)) with
    | Ok r =>
        (ELog [LStr (lit "Contact form submission received")]
           :: trace (process env req (json_headers req)), Ok r)
    | Throw e =>
        (ELog [LStr (lit "Contact form submission received")]
           :: trace (process env req (json_headers req))
           ++ [ELog [LStr (lit "Error processing contact form:");
                     message_or_error e]],
         Ok {| status := 500; res_headers := json_headers req;
               res_body := Some (failure_body generic_error) |})
    end.
Proof.
  intros Hm. unfold handler. rewrite (not_options req Hm).
  rewrite bind_run. cbn [outcome trace log fst snd app].
  rewrite try_catch_run.
  destruct (outcome (process env req (json_headers req))); reflexivity.
Qed.

Lemma handler_fetches (env : environment) (req : request) :
  method req <> lit "OPTIONS" ->
  fetches (trace (handler env req))
  = fetches (trace (process env req (json_headers req))).
Proof.
  intros Hm. rewrite (handler_run env req Hm).
  destruct (outcome (process env req (json_headers req)));
    cbn [trace fst fetches]; [reflexivity|].
  rewrite fetches_app. cbn. apply app_nil_r.
Qed.

Lemma handler_outcome (env : environment) (req : request) :
  method req <> lit "OPTIONS" ->
  outcome (handler env req) =
    match outcome (process env req (json_headers req)) with
    | Ok r => Ok r
    | Throw _ =>
        Ok {| status := 500; res_headers := json_headers req;
              res_body := Some (failure_body generic_error) |}
    end.
Proof.
  intros Hm. rewrite (handler_run env req Hm).
  now destruct (outcome (process env req (json_headers req))).
Qed.

(** The simple handler, by the same three cases as [process_checked]. *)
Lemma contact_handler_outcome (env : environment) (req : request) :
  outcome (contact_handler env req) =
    if missing_required req then
      Ok {| status := 400; res_headers := [];
            res_body := Some (JObj [ (lit "error", JStr required_error) ]) |}
    else
      match regex_test emailRegex (submitted req (lit "email")) with
      | Ok true =>
          Ok {| status := 200;
                res_headers := [ (lit "Content-Type", lit "application/json") ];
                res_body := Some success_body |}
      | Ok false =>
          Ok {| status := 400; res_headers := [];
                res_body :=
                  Some (JObj [ (lit "error", JStr invalid_email_error) ]) |}
      | Throw e => Throw e
      end.
Proof.
  unfold contact_handler, missing_required. rewrite bind_log. cbn [outcome snd].
  destruct (negb (truthy (submitted req (lit "name")))
            || negb (truthy (submitted req (lit "email")))
            || negb (truthy (submitted req (lit "message")))); [reflexivity|].
  destruct (regex_test emailRegex (submitted req (lit "email"))) as [[|]|e];
    reflexivity.
Qed.

Lemma contact_handler_fetches (env : environment) (req : request) :
  fetches (trace (contact_handler env req)) = [].
Proof.
  unfold contact_handler. rewrite bind_log. cbn [trace fst fetches].
  destruct (negb (truthy (submitted req (lit "name")))
            || negb (truthy (submitted req (lit "email")))
            || negb (truthy (submitted req (lit "message")))); [reflexivity|].
  destruct (regex_test emailRegex (submitted req (lit "email"))) as [[|]|e];
    reflexivity.
Qed.

(** ** The claims about the Graph-mail handler *)

(** C1.  On a request that is not a preflight and whose honeypot field is
    truthy, the handler logs the two lines, answers 200 with the success
    body and sends no request to the network (neither the token request
    nor the mail request), whatever the other fields are. *)
Theorem honeypot_short_circuit (env : environment) (req : request) :
  method req <> lit "OPTIONS" ->
  truthy (submitted req (lit "honeypot")) = true ->
  handler env req =
    ([ ELog [LStr (lit "Contact form submission received")];
       ELog [LStr (lit "Honeypot triggered - likely spam")] ],
     Ok {| status := 200; res_headers := json_headers req;
           res_body := Some success_body |})
  /\ fetches (trace (handler env req)) = []
  /\ get success_body (lit "success") = JBool true.
Proof.
  intros Hm Hh. rewrite (handler_run env req Hm).
  rewrite (process_honeypot env req (json_headers req) Hh).
  repeat split.
Qed.

(** C8.  On a request with method OPTIONS the handler logs one line and
    answers 204 with no body and exactly the three CORS headers: the
    allowed origin, which is the origin of the request when that is one of
    the three allowed origins and the first of them otherwise, the methods
    [POST, OPTIONS] and the header [Content-Type]; the run contains no
    request to the network and is the same whatever the body and the
    environment are, so nothing of the body is validated or checked. *)
Theorem preflight (env : environment) (req : request) :
  method req = lit "OPTIONS" ->
  exists o : jsstring,
    handler env req =
      ([ELog [LStr (lit "Contact form submission received")]],
       Ok {| status := 204;
             res_headers :=
               [ (lit "Access-Control-Allow-Origin", o);
                 (lit "Access-Control-Allow-Methods", lit "POST, OPTIONS");
                 (lit "Access-Control-Allow-Headers", lit "Content-Type") ];
             res_body := None |})
    /\ In o [ lit "https://meekertechnologies.com";
              lit "https://www.meekertechnologies.com";
              lit "https://witty-hill-016919110.1.azurestaticapps.net" ]
    /\ (forall o',
          origin req = Some o' ->
          In o' [ lit "https://meekertechnologies.com";
                  lit "https://www.meekertechnologies.com";
                  lit "https://witty-hill-016919110.1.azurestaticapps.net" ] ->
          o = o')
    /\ (origin req = None
        \/ (exists o',
              origin req = Some o'
              /\ ~ In o' [ lit "https://meekertechnologies.com";
                           lit "https://www.meekertechnologies.com";
                           lit "https://witty-hill-016919110.1.azurestaticapps.net" ]) ->
        o = lit "https://meekertechnologies.com")
    /\ fetches (trace (handler env req)) = []
    /\ (forall (env' : environment) (b : value),
          handler env' {| method := method req; headers := headers req;
                          body := b |}
          = handler env req).
Proof.
  intros Hm. exists (corsOrigin req).
  rewrite (handler_preflight env req Hm).
  split; [reflexivity|].
  split.
  { unfold corsOrigin. destruct (origin req) as [o|]; [|now left].
    destruct (includes allowedOrigins o) eqn:E; [|now left].
    now apply includes_In. }
  split.
  { intros o' Ho Hin. unfold corsOrigin. rewrite Ho.
    change (In o' allowedOrigins) in Hin.
    apply includes_In in Hin. now rewrite Hin. }
  split.
  { unfold corsOrigin. intros [-> | (o' & -> & Hn)]; [reflexivity|].
    destruct (includes allowedOrigins o') eqn:E; [|reflexivity].
    apply includes_In in E. contradiction. }
  split; [reflexivity|].
  intros env' b. now rewrite handler_preflight.
Qed.

(** C4, amended.  When one of name, email and message is absent or empty,
    the Graph-mail handler answers 400 with the message that the three are
    required on every request that is not a preflight and whose honeypot
    field is empty, sending nothing to the network; the simple handler,
    which has no honeypot, answers 400 with that message on every request. *)
Theorem missing_field_rejected (env : environment) (req : request) :
  missing_required req = true ->
  (method req <> lit "OPTIONS" ->
   truthy (submitted req (lit "honeypot")) = false ->
   outcome (handler env req) =
     Ok {| status := 400; res_headers := json_headers req;
           res_body := Some (failure_body required_error) |}
   /\ fetches (trace (handler env req)) = [])
  /\ outcome (contact_handler env req) =
       Ok {| status := 400; res_headers := [];
             res_body := Some (JObj [ (lit "error", JStr required_error) ]) |}.
Proof.
  intros Hmiss. split.
  - intros Hm Hh.
    rewrite (handler_fetches env req Hm), (handler_outcome env req Hm).
    now rewrite (process_missing env req (json_headers req) Hh Hmiss).
  - now rewrite contact_handler_outcome, Hmiss.
Qed.

(** C5, amended.  On a request that is not a preflight, with an empty
    honeypot and name, email and message present: if the e-mail field
    converts to a string that does not have the shape of the syntactic
    check, the Graph-mail handler answers 400 with the message
    [Invalid email format] and sends nothing to the network, and the
    simple handler answers 400 with the same message; if the e-mail field
    does not convert to a string, the Graph-mail handler sends nothing and
    answers 500 with the generic message, and the simple handler throws. *)
Theorem invalid_email_rejected (env : environment) (req : request) :
  method req <> lit "OPTIONS" ->
  truthy (submitted req (lit "honeypot")) = false ->
  missing_required req = false ->
  (forall s : jsstring,
     to_string (submitted req (lit "email")) = Ok s ->
     ~ email_pattern s ->
     outcome (handler env req) =
       Ok {| status := 400; res_headers := json_headers req;
             res_body :=
               Some (JObj [ (lit "success", JBool false);
                            (lit "error", JStr (lit "Invalid email format")) ]) |}
     /\ fetches (trace (handler env req)) = []
     /\ outcome (contact_handler env req) =
          Ok {| status := 400; res_headers := [];
                res_body :=
                  Some (JObj [ (lit "error",
                                JStr (lit "Invalid email format")) ]) |})
  /\ (forall err : exn,
        to_string (submitted req (lit "email")) = Throw err ->
        outcome (handler env req) =
          Ok {| status := 500; res_headers := json_headers req;
                res_body :=
                  Some (JObj [ (lit "success", JBool false);
                               (lit "error",
                                JStr (lit "Unable to process your request. Please try again later.")) ]) |}
        /\ fetches (trace (handler env req)) = []
        /\ outcome (contact_handler env req) = Throw err).
Proof.
  intros Hm Hh Hmiss. split.
  - intros s Hs Hp.
    apply (regex_test_pattern _ s Hs) in Hp.
    rewrite (handler_fetches env req Hm), (handler_outcome env req Hm).
    rewrite (process_checked env req (json_headers req) Hh Hmiss), Hp.
    rewrite contact_handler_outcome, Hmiss, Hp. repeat split.
  - intros err Hs.
    assert (Hr : regex_test emailRegex (submitted req (lit "email")) = Throw err)
      by (unfold regex_test; now rewrite Hs).
    rewrite (handler_fetches env req Hm), (handler_outcome env req Hm).
    rewrite (process_checked env req (json_headers req) Hh Hmiss), Hr.
    rewrite contact_handler_outcome, Hmiss, Hr. repeat split.
Qed.

(** C6.  When the body of the outer [try] ends with an exception (the
    guarded token and mail step has its own handler and never lets one
    out), the handler logs the exception for the operator and answers 500
    with [success] false and the fixed generic message: the response is the
    same for every exception, so nothing of it reaches the body. *)
Theorem unexpected_exception_hidden (env : environment) (req : request) (e : exn) :
  method req <> lit "OPTIONS" ->
  outcome (process env req (json_headers req)) = Throw e ->
  handler env req =
    (ELog [LStr (lit "Contact form submission received")]
       :: trace (process env req (json_headers req))
       ++ [ELog [LStr (lit "Error processing contact form:"); message_or_error e]],
     Ok {| status := 500; res_headers := json_headers req;
           res_body := Some (failure_body generic_error) |})
  /\ get (failure_body generic_error) (lit "success") = JBool false
  /\ get (failure_body generic_error) (lit "error")
     = JStr (lit "Unable to process your request. Please try again later.").
Proof.
  intros Hm He. rewrite (handler_run env req Hm), He. repeat split.
Qed.

Lemma token_request_not_mail (env : environment) (from : jsstring) :
  url (token_request env) <> graphUrl from.
Proof.
  unfold token_request, tokenUrl, graphUrl. cbn [url]. intros E.
  vm_compute in E. discriminate E.
Qed.

(** The run of the handler on a valid submission with convertible fields. *)
Lemma valid_run (env : environment) (req : request) :
  method req <> lit "OPTIONS" ->
  valid_submission req ->
  convertible req = true ->
  exists it n e c m,
    interests_text (submitted req (lit "interests")) = Ok it
    /\ to_string (submitted req (lit "name")) = Ok n
    /\ to_string (submitted req (lit "email")) = Ok e
    /\ to_string (or_else (submitted req (lit "company")) not_provided) = Ok c
    /\ to_string (submitted req (lit "message")) = Ok m
    /\ truthy (submitted req (lit "name")) = true
    /\ truthy (submitted req (lit "email")) = true
    /\ truthy (submitted req (lit "message")) = true
    /\ fetches (trace (handler env req)) =
         fetches (trace (deliver env (json_headers req)
                           (submitted req (lit "name"))
                           (submitted req (lit "email"))
                           (submitted req (lit "company")) it
                           (submitted req (lit "message"))
                           (senderEmail env) (ownerEmail env)))
    /\ outcome (handler env req) =
         Ok {| status := 200; res_headers := json_headers req;
               res_body :=
                 Some match outcome (deliver env (json_headers req)
                                       (submitted req (lit "name"))
                                       (submitted req (lit "email"))
                                       (submitted req (lit "company")) it
                                       (submitted req (lit "message"))
                                       (senderEmail env) (ownerEmail env)) with
                      | Ok _ => success_body
                      | Throw _ => delayed_body
                      end |}.
Proof.
  intros Hm Hv Hc.
  destruct (accepted_convertible env req (json_headers req) Hc)
    as (it & n & e & c & m & Ei & En & Ee & Ec & Em & Hf & Ho).
  destruct (missing_required_false req (proj1 (proj2 Hv))) as (Tn & Te & Tm).
  exists it, n, e, c, m. repeat (split; [assumption|]).
  rewrite (handler_fetches env req Hm), (handler_outcome env req Hm).
  rewrite (process_valid env req (json_headers req) Hv), Ho, guarded_outcome.
  split; [exact Hf | reflexivity].
Qed.

(** The run of the handler on a valid submission with a field that does
    not convert. *)
Lemma unconvertible_run (env : environment) (req : request) :
  method req <> lit "OPTIONS" ->
  valid_submission req ->
  convertible req = false ->
  fetches (trace (handler env req)) = []
  /\ outcome (handler env req) =
       Ok {| status := 500; res_headers := json_headers req;
             res_body := Some (failure_body generic_error) |}.
Proof.
  intros Hm Hv Hc.
  destruct (accepted_unconvertible env req (json_headers req) Hc)
    as [Hf [err He]].
  rewrite (handler_fetches env req Hm), (handler_outcome env req Hm).
  rewrite (process_valid env req (json_headers req) Hv), He.
  split; [exact Hf | reflexivity].
Qed.

(** C3.  On a valid request that is not a preflight, when the run sent the
    token request and [getAccessToken] throws, or sent a request to the
    mail endpoint that the network rejects or answers with a status that
    is not [ok], or [getAccessToken] returned a token and [sendEmail],
    called with it and with the subject and the body built from the
    escaped fields, throws (be it before its request, on a token that does
    not convert to a string, or after it), the handler answers 200 with
    the fixed body whose [success] is true and whose note says that
    delivery may be delayed: the body is the same for every error, so no
    error message reaches it. *)
Theorem delivery_failure_swallowed (env : environment) (req : request) :
  method req <> lit "OPTIONS" ->
  valid_submission req ->
  (In (token_request env) (fetches (trace (handler env req)))
   /\ throws (getAccessToken env))
  \/ (exists q, In q (fetches (trace (handler env req)))
                /\ url q = graphUrl (senderEmail env)
                /\ fetch_fails env q)
  \/ (exists tok interestsText safeName safeEmail safeCompany safeInterests
             escaped,
        outcome (getAccessToken env) = Ok tok
        /\ interests_text (submitted req (lit "interests")) = Ok interestsText
        /\ escapeHtml (submitted req (lit "name")) = Ok safeName
        /\ escapeHtml (submitted req (lit "email")) = Ok safeEmail
        /\ escapeHtml (or_else (submitted req (lit "company")) not_provided)
           = Ok safeCompany
        /\ escapeHtml (JStr interestsText) = Ok safeInterests
        /\ escapeHtml (submitted req (lit "message")) = Ok escaped
        /\ throws (sendEmail env tok (senderEmail env) (ownerEmail env)
                     (subject_of safeInterests safeName)
                     (htmlBody_of safeName safeEmail safeCompany safeInterests
                        (br_newlines escaped)))) ->
  outcome (handler env req) =
    Ok {| status := 200; res_headers := json_headers req;
          res_body :=
            Some (JObj [ (lit "success", JBool true);
                         (lit "message",
                          JStr (lit "Thank you for your inquiry. We will be in touch within 24 hours."));
                         (lit "note",
                          JStr (lit "Email delivery may be delayed.")) ]) |}
  /\ get delayed_body (lit "success") = JBool true.
Proof.
  intros Hm Hv Hfail. split; [|reflexivity].
  change (JObj [ (lit "success", JBool true);
                 (lit "message",
                  JStr (lit "Thank you for your inquiry. We will be in touch within 24 hours."));
                 (lit "note", JStr (lit "Email delivery may be delayed.")) ])
    with delayed_body.
  destruct (missing_required_false req (proj1 (proj2 Hv))) as (Tn' & Te' & Tm').
  assert (Hc : convertible req = true \/ convertible req = false)
    by (destruct (convertible req); tauto).
  destruct Hc as [Hc | Hc].
  - destruct (valid_run env req Hm Hv Hc)
      as (it & n & e & c & m & Ei & En & Ee & Ec & Em & Tn & Te & Tm & Hf & Ho).
    rewrite Hf in Hfail.
    rewrite (deliver_fetches env (json_headers req) _ _ _ _ it n e c m _ _
               Tn Te Tm En Ee Ec Em) in Hfail.
    assert (Hthrow : throws (deliver env (json_headers req)
                               (submitted req (lit "name"))
                               (submitted req (lit "email"))
                               (submitted req (lit "company")) it
                               (submitted req (lit "message"))
                               (senderEmail env) (ownerEmail env))).
    { destruct Hfail as [[_ Ht] | [(q & Hq & Hu & Hq') | Hsend]].
      - now apply (deliver_throws_token env (json_headers req) _ _ _ _ it n e c m).
      - destruct Hq as [<- | Hq];
          [now apply token_request_not_mail in Hu|].
        destruct (outcome (getAccessToken env)) as [tok|] eqn:Et; [|destruct Hq].
        destruct (to_string tok) as [bearer|] eqn:Eb; [|destruct Hq].
        destruct Hq as [<- | []].
        now apply (deliver_throws_mail env (json_headers req) _ _ _ _ it n e c m
                     _ _ Tn Te Tm En Ee Ec Em tok bearer).
      - destruct Hsend
          as (tok & it' & sn & se & sc & si & sm
              & Et & Ei' & Hn & He & Hco & Hi & Hme & Hthrow).
        assert (it' = it) by congruence. subst it'.
        destruct (escapeHtml_ok _ sn Tn Hn) as (n' & En' & ->).
        destruct (escapeHtml_ok _ se Te He) as (e' & Ee' & ->).
        destruct (escapeHtml_ok _ sc (or_else_not_provided_truthy _) Hco)
          as (c' & Ec' & ->).
        destruct (escapeHtml_ok _ sm Tm Hme) as (m' & Em' & ->).
        rewrite escapeHtml_string in Hi. injection Hi as <-.
        assert (n' = n) by congruence. assert (e' = e) by congruence.
        assert (c' = c) by congruence. assert (m' = m) by congruence.
        subst n' e' c' m'.
        now apply (deliver_throws_send env (json_headers req) _ _ _ _ it n e c m
                     _ _ Tn Te Tm En Ee Ec Em tok). }
    destruct Hthrow as [err Herr]. now rewrite Ho, Herr.
  - destruct (unconvertible_run env req Hm Hv Hc) as [Hf _].
    rewrite Hf in Hfail.
    destruct Hfail as [[[] _] | [(q & [] & _) | Hsend]].
    exfalso.
    destruct Hsend
      as (tok & it' & sn & se & sc & si & sm
          & Et & Ei' & Hn & He & Hco & Hi & Hme & Hthrow).
    destruct (escapeHtml_ok _ sn Tn' Hn) as (n' & En' & _).
    destruct (escapeHtml_ok _ se Te' He) as (e' & Ee' & _).
    destruct (escapeHtml_ok _ sc (or_else_not_provided_truthy _) Hco)
      as (c' & Ec' & _).
    destruct (escapeHtml_ok _ sm Tm' Hme) as (m' & Em' & _).
    unfold convertible in Hc. rewrite Ei', En', Ee', Ec', Em' in Hc.
    discriminate Hc.
Qed.

(** C2, amended.  On a valid request that is not a preflight:
    when the fields convert to strings and [getAccessToken] returns a
    token that converts to a string, the handler sends exactly two
    requests, the token request and then one mail request carrying that
    token from the sender to the owner, whose subject and HTML body are
    built from the results of [escapeHtml] on the name, the e-mail, the
    company (or its default), the joined interests and the message, none
    of which contains an angle bracket, a double quote or an apostrophe;
    when the fields convert and [getAccessToken] throws, or returns a
    token that does not convert to a string, the handler sends the token
    request alone and answers 200; when a field does not convert, it sends
    nothing and answers 500. *)
Theorem valid_submission_requests (env : environment) (req : request) :
  method req <> lit "OPTIONS" ->
  valid_submission req ->
  (forall (tok : value) (bearer : jsstring),
     convertible req = true ->
     outcome (getAccessToken env) = Ok tok ->
     to_string tok = Ok bearer ->
     exists interestsText safeName safeEmail safeCompany safeInterests escaped,
       interests_text (submitted req (lit "interests")) = Ok interestsText
       /\ escapeHtml (submitted req (lit "name")) = Ok safeName
       /\ escapeHtml (submitted req (lit "email")) = Ok safeEmail
       /\ escapeHtml (or_else (submitted req (lit "company")) not_provided)
          = Ok safeCompany
       /\ escapeHtml (JStr interestsText) = Ok safeInterests
       /\ escapeHtml (submitted req (lit "message")) = Ok escaped
       /\ fetches (trace (handler env req)) =
            [ token_request env;
              mail_request bearer (senderEmail env) (ownerEmail env)
                (subject_of safeInterests safeName)
                (htmlBody_of safeName safeEmail safeCompany safeInterests
                   (br_newlines escaped)) ]
       /\ Forall markup_free
            [safeName; safeEmail; safeCompany; safeInterests; escaped])
  /\ (convertible req = true ->
      throws (getAccessToken env)
      \/ (exists tok err,
            outcome (getAccessToken env) = Ok tok /\ to_string tok = Throw err) ->
      fetches (trace (handler env req)) = [token_request env]
      /\ answered (handler env req) = Some 200)
  /\ (convertible req = false ->
      fetches (trace (handler env req)) = []
      /\ answered (handler env req) = Some 500).
Proof.
  intros Hm Hv. split; [|split].
  - intros tok bearer Hc Et Eb.
    destruct (valid_run env req Hm Hv Hc)
      as (it & n & e & c & m & Ei & En & Ee & Ec & Em & Tn & Te & Tm & Hf & _).
    exists it, (spec_escape n), (spec_escape e), (spec_escape c),
      (spec_escape it), (spec_escape m).
    split; [exact Ei|].
    split; [now apply escapeHtml_truthy|].
    split; [now apply escapeHtml_truthy|].
    split; [apply escapeHtml_truthy;
            [apply or_else_not_provided_truthy | exact Ec]|].
    split; [apply escapeHtml_string|].
    split; [now apply escapeHtml_truthy|].
    split.
    + rewrite Hf.
      rewrite (deliver_fetches env (json_headers req) _ _ _ _ it n e c m _ _
                 Tn Te Tm En Ee Ec Em).
      now rewrite Et, Eb.
    + repeat constructor; apply spec_escape_markup_free.
  - intros Hc Hfail.
    destruct (valid_run env req Hm Hv Hc)
      as (it & n & e & c & m & Ei & En & Ee & Ec & Em & Tn & Te & Tm & Hf & Ho).
    unfold answered. rewrite Hf, Ho.
    rewrite (deliver_fetches env (json_headers req) _ _ _ _ it n e c m _ _
               Tn Te Tm En Ee Ec Em).
    split; [|reflexivity].
    destruct Hfail as [[err Et] | (tok & err & Et & Eb)]; rewrite Et;
      [reflexivity | now rewrite Eb].
  - intros Hc. destruct (unconvertible_run env req Hm Hv Hc) as [Hf Ho].
    unfold answered. now rewrite Hf, Ho.
Qed.

(** C9.  The handler always answers, with status 204, 200, 400 or 500, and
    its answer carries an [Access-Control-Allow-Origin] header whose value
    is one of the three allowed origins; an origin of the request that is
    not allowed is not reflected: the value is then the first allowed
    origin. *)
Theorem cors_origin_allowlisted (env : environment) (req : request) :
  exists r,
    outcome (handler env req) = Ok r
    /\ In (status r) [204; 200; 400; 500]
    /\ header (lit "Access-Control-Allow-Origin") (res_headers r)
       = Some (corsOrigin req)
    /\ In (corsOrigin req) allowedOrigins
    /\ (forall o, origin req = Some o -> ~ In o allowedOrigins ->
          corsOrigin req = lit "https://meekertechnologies.com"
          /\ corsOrigin req <> o).
Proof.
  assert (Hin : In (corsOrigin req) allowedOrigins).
  { unfold corsOrigin. destruct (origin req) as [o|]; [|now left].
    destruct (includes allowedOrigins o) eqn:E; [|now left].
    now apply includes_In. }
  assert (Hout : forall o, origin req = Some o -> ~ In o allowedOrigins ->
                   corsOrigin req = lit "https://meekertechnologies.com"
                   /\ corsOrigin req <> o).
  { intros o Ho Hn. unfold corsOrigin in *. rewrite Ho in *.
    destruct (includes allowedOrigins o) eqn:E.
    - apply includes_In in E. contradiction.
    - split; [reflexivity|]. intros <-. apply Hn. now left. }
  destruct (str_eqb (method req) (lit "OPTIONS")) eqn:Hm.
  - apply str_eqb_eq in Hm. rewrite (handler_preflight env req Hm).
    eexists. split; [reflexivity|]. cbn [status res_headers].
    split; [now left|]. split; [reflexivity|]. now split.
  - assert (Hm' : method req <> lit "OPTIONS").
    { intros E. rewrite E, str_eqb_refl in Hm. discriminate. }
    rewrite (handler_outcome env req Hm').
    destruct (outcome (process env req (json_headers req))) as [r|e] eqn:E.
    + destruct (process_answer env req _ r E) as [Hh Hs].
      exists r. rewrite Hh. split; [reflexivity|].
      split; [destruct Hs as [-> | ->]; cbn; tauto|].
      split; [reflexivity|]. now split.
    + eexists. split; [reflexivity|]. cbn [status res_headers].
      split; [cbn; tauto|]. split; [reflexivity|]. now split.
Qed.

(** C10, amended.  On a request that is not a preflight and whose honeypot
    field is empty, unless the Graph-mail handler answers 500 (which it
    does when a field does not convert to a string), the simple handler
    and the Graph-mail handler answer with the same status: 400 exactly
    when name, email or message is missing or the e-mail fails the
    syntactic check, and 200 exactly when the three are present and the
    e-mail passes it. *)
Theorem handlers_agree (env : environment) (req : request) :
  method req <> lit "OPTIONS" ->
  truthy (submitted req (lit "honeypot")) = false ->
  answered (handler env req) <> Some 500 ->
  answered (contact_handler env req) = answered (handler env req)
  /\ (answered (handler env req) = Some 400 <->
      missing_required req = true \/ ~ email_well_formed req)
  /\ (answered (handler env req) = Some 200 <->
      missing_required req = false /\ email_well_formed req).
Proof.
  intros Hm Hh. unfold answered.
  rewrite (handler_outcome env req Hm), contact_handler_outcome.
  destruct (missing_required req) eqn:Hmiss.
  { rewrite (process_missing env req _ Hh Hmiss). cbn. intros _.
    repeat split; try tauto; try discriminate. intros [? _]. discriminate. }
  rewrite (process_checked env req _ Hh Hmiss).
  destruct (regex_test emailRegex (submitted req (lit "email"))) as [[|]|e] eqn:Er.
  - apply regex_test_well_formed in Er.
    destruct (convertible req) eqn:Hc.
    + destruct (accepted_convertible env req (json_headers req) Hc)
        as (it & _ & _ & _ & _ & _ & _ & _ & _ & _ & _ & ->).
      rewrite guarded_outcome. cbn. intros _.
      repeat split; try tauto; try discriminate.
      intros [? | ?]; [discriminate | contradiction].
    + destruct (accepted_unconvertible env req (json_headers req) Hc)
        as [_ [err ->]].
      cbn. intros Hn. now contradiction Hn.
  - apply regex_test_ill_formed in Er. cbn. intros _.
    repeat split; try tauto; discriminate.
  - cbn. intros Hn. now contradiction Hn.
Qed.

End Properties.

(** * Further properties of the code *)

Section Behaviour.
Context `{Number}.

(** Settles the cases of a characterisation once the run is known. *)
Ltac settle :=
  cbn; repeat split; intros;
  repeat match goal with
         | H : _ /\ _ |- _ => destruct H
         | H : exists _, _ |- _ => destruct H
         end;
  try discriminate; try contradiction; try tauto; eauto.

(** ** Complete runs of a valid submission *)

Lemma log_submission_lines (name email company message : value)
    (it n e c m : jsstring) :
  to_string name = Ok n ->
  to_string email = Ok e ->
  to_string (or_else company not_provided) = Ok c ->
  to_string message = Ok m ->
  log_submission name email company it message
  = (submission_log n e c it m, Ok tt).
Proof.
  intros Hn He Hc Hm. unfold log_submission. now rewrite Hn, He, Hc, Hm.
Qed.

Lemma guarded_run (env : environment) (hdrs : list (jsstring * jsstring))
    (name email company message : value) (it from to : jsstring) :
  try_catch (deliver env hdrs name email company it message from to)
    (email_failed hdrs) =
    match outcome (deliver env hdrs name email company it message from to) with
    | Ok _ =>
        (trace (deliver env hdrs name email company it message from to),
         Ok {| status := 200; res_headers := hdrs;
               res_body := Some success_body |})
    | Throw err =>
        (trace (deliver env hdrs name email company it message from to)
           ++ [ELog [LStr (lit "Email sending failed:");
                     LStr (error_message err)]],
         Ok {| status := 200; res_headers := hdrs;
               res_body := Some delayed_body |})
    end.
Proof.
  rewrite try_catch_run.
  destruct (outcome (deliver _ _ _ _ _ _ _ _ _)) as [r|err] eqn:E;
    [|reflexivity].
  now rewrite (deliver_answer _ _ _ _ _ _ _ _ _ r E).
Qed.

Section Valid.
Variables (env : environment) (req : request) (it n e c m : jsstring).
Hypothesis Hm : method req <> lit "OPTIONS".
Hypothesis Hv : valid_submission req.
Hypothesis Ei : interests_text (submitted req (lit "interests")) = Ok it.
Hypothesis En : to_string (submitted req (lit "name")) = Ok n.
Hypothesis Ee : to_string (submitted req (lit "email")) = Ok e.
Hypothesis Ec :
  to_string (or_else (submitted req (lit "company")) not_provided) = Ok c.
Hypothesis Em : to_string (submitted req (lit "message")) = Ok m.

Local Abbreviation D :=
  (deliver env (json_headers req) (submitted req (lit "name"))
     (submitted req (lit "email")) (submitted req (lit "company")) it
     (submitted req (lit "message")) (senderEmail env) (ownerEmail env)).

Lemma valid_truthy :
  truthy (submitted req (lit "name")) = true
  /\ truthy (submitted req (lit "email")) = true
  /\ truthy (submitted req (lit "message")) = true.
Proof. apply missing_required_false, Hv. Qed.

(** The run up to the guarded step, then the guarded step. *)
Lemma valid_handler_run :
  handler env req =
    match outcome D with
    | Ok _ =>
        (ELog [LStr (lit "Contact form submission received")]
           :: submission_log n e c it m ++ trace D,
         Ok {| status := 200; res_headers := json_headers req;
               res_body := Some success_body |})
    | Throw err =>
        (ELog [LStr (lit "Contact form submission received")]
           :: submission_log n e c it m ++ trace D
           ++ [ELog [LStr (lit "Email sending failed:");
                     LStr (error_message err)]],
         Ok {| status := 200; res_headers := json_headers req;
               res_body := Some delayed_body |})
    end.
Proof.
  rewrite (handler_run env req Hm), (process_valid env req _ Hv).
  rewrite Ei, bind_lift_ok, (log_submission_lines _ _ _ _ it n e c m En Ee Ec Em).
  rewrite bind_run. cbn [outcome trace fst snd]. rewrite guarded_run.
  now destruct (outcome D).
Qed.

Lemma deliver_token_throws (err : exn) :
  outcome (getAccessToken env) = Throw err ->
  D = ([EFetch (token_request env)], Throw err).
Proof.
  destruct valid_truthy as (Tn & Te & Tm). intros E.
  rewrite (deliver_run env (json_headers req) _ _ _ _ it n e c m _ _
             Tn Te Tm En Ee Ec Em).
  now rewrite bind_run, E, getAccessToken_trace.
Qed.

Lemma deliver_mail_run (tok : value) (bearer : jsstring) :
  outcome (getAccessToken env) = Ok tok ->
  to_string tok = Ok bearer ->
  D = match outcome (sendEmail env tok (senderEmail env) (ownerEmail env)
                       (subject_of (spec_escape it) (spec_escape n))
                       (htmlBody_of (spec_escape n) (spec_escape e)
                          (spec_escape c) (spec_escape it)
                          (br_newlines (spec_escape m)))) with
      | Ok _ =>
          ([ EFetch (token_request env);
             EFetch (submission_mail env bearer n e c it m);
             ELog [LStr (lit "Email sent successfully")] ],
           Ok {| status := 200; res_headers := json_headers req;
                 res_body := Some success_body |})
      | Throw err =>
          ([ EFetch (token_request env);
             EFetch (submission_mail env bearer n e c it m) ], Throw err)
      end.
Proof.
  destruct valid_truthy as (Tn & Te & Tm). intros Et Eb.
  rewrite (deliver_run env (json_headers req) _ _ _ _ it n e c m _ _
             Tn Te Tm En Ee Ec Em).
  rewrite bind_run, Et, getAccessToken_trace, bind_run.
  destruct (sendEmail_run env tok bearer (senderEmail env) (ownerEmail env)
              (subject_of (spec_escape it) (spec_escape n))
              (htmlBody_of (spec_escape n) (spec_escape e) (spec_escape c)
                 (spec_escape it) (br_newlines (spec_escape m))) Eb)
    as (Ht & _).
  rewrite Ht.
  now destruct (outcome (sendEmail env tok _ _ _ _)).
Qed.

End Valid.

(** X1.  The complete run of a delivered submission: on a valid request
    whose fields convert, when the token request yields a token and the
    network accepts the mail request, the handler logs the receipt, the
    heading and the five lines of the submission, sends the token request
    and then the mail request, logs the success and answers 200 with the
    success body. *)
Theorem delivered_run (env : environment) (req : request)
    (it n e c m : jsstring) (tok : value) (bearer : jsstring) :
  method req <> lit "OPTIONS" ->
  valid_submission req ->
  interests_text (submitted req (lit "interests")) = Ok it ->
  to_string (submitted req (lit "name")) = Ok n ->
  to_string (submitted req (lit "email")) = Ok e ->
  to_string (or_else (submitted req (lit "company")) not_provided) = Ok c ->
  to_string (submitted req (lit "message")) = Ok m ->
  outcome (getAccessToken env) = Ok tok ->
  to_string tok = Ok bearer ->
  ~ fetch_fails env (submission_mail env bearer n e c it m) ->
  handler env req =
    (ELog [LStr (lit "Contact form submission received")]
       :: submission_log n e c it m
       ++ [ EFetch (token_request env);
            EFetch (submission_mail env bearer n e c it m);
            ELog [LStr (lit "Email sent successfully")] ],
     Ok {| status := 200; res_headers := json_headers req;
           res_body := Some success_body |}).
Proof.
  intros Hm Hv Ei En Ee Ec Em Et Eb Hok.
  rewrite (valid_handler_run env req it n e c m Hm Hv Ei En Ee Ec Em).
  rewrite (deliver_mail_run env req it n e c m Hv En Ee Ec Em tok bearer Et Eb).
  destruct (sendEmail_run env tok bearer (senderEmail env) (ownerEmail env)
              (subject_of (spec_escape it) (spec_escape n))
              (htmlBody_of (spec_escape n) (spec_escape e) (spec_escape c)
                 (spec_escape it) (br_newlines (spec_escape m))) Eb)
    as (_ & _ & Hsent).
  now rewrite (Hsent Hok).
Qed.

(** X2.  A refused token request is recorded for the operator and hidden
    from the client: when the token endpoint answers a valid submission
    with a status that is not [ok] and a text [t], the handler sends no
    mail request, logs the line [Email sending failed:] with the message
    of [getAccessToken], which carries the status and [t], and answers 200
    with the fixed body of a delayed delivery. *)
Theorem token_refusal_logged (env : environment) (req : request)
    (it n e c m : jsstring) (r : fetch_response) (t : jsstring) :
  method req <> lit "OPTIONS" ->
  valid_submission req ->
  interests_text (submitted req (lit "interests")) = Ok it ->
  to_string (submitted req (lit "name")) = Ok n ->
  to_string (submitted req (lit "email")) = Ok e ->
  to_string (or_else (submitted req (lit "company")) not_provided) = Ok c ->
  to_string (submitted req (lit "message")) = Ok m ->
  fetch env (token_request env) = Ok r ->
  ok r = false ->
  text r = Ok t ->
  handler env req =
    (ELog [LStr (lit "Contact form submission received")]
       :: submission_log n e c it m
       ++ [ EFetch (token_request env);
            ELog [ LStr (lit "Email sending failed:");
                   LStr (lit "Failed to get access token: "
                         ++ number_toString (status_code r)
                         ++ lit " - " ++ t) ] ],
     Ok {| status := 200; res_headers := json_headers req;
           res_body := Some delayed_body |}).
Proof.
  intros Hm Hv Ei En Ee Ec Em Ef Hok Ht.
  rewrite (valid_handler_run env req it n e c m Hm Hv Ei En Ee Ec Em).
  rewrite (deliver_token_throws env req it n e c m Hv En Ee Ec Em
             (Err (lit "Failed to get access token: "
                   ++ number_toString (status_code r) ++ lit " - " ++ t))).
  - reflexivity.
  - unfold getAccessToken, do_fetch. rewrite bind_run. cbn [outcome trace fst snd].
    now rewrite Ef, Hok, Ht.
Qed.

(** X3.  A token response without an [access_token] still leads to a mail
    request: when the token endpoint answers [ok] with a JSON object that
    has no such property, [getAccessToken] returns [undefined] and the
    handler sends the mail request with the authorization
    [Bearer undefined]. *)
Theorem missing_token_still_sent (env : environment) (req : request)
    (it n e c m : jsstring) (r : fetch_response)
    (props : list (jsstring * value)) :
  method req <> lit "OPTIONS" ->
  valid_submission req ->
  interests_text (submitted req (lit "interests")) = Ok it ->
  to_string (submitted req (lit "name")) = Ok n ->
  to_string (submitted req (lit "email")) = Ok e ->
  to_string (or_else (submitted req (lit "company")) not_provided) = Ok c ->
  to_string (submitted req (lit "message")) = Ok m ->
  fetch env (token_request env) = Ok r ->
  ok r = true ->
  json r = Ok (JObj props) ->
  lookup (lit "access_token") props = None ->
  fetches (trace (handler env req)) =
    [ token_request env; submission_mail env (lit "undefined") n e c it m ]
  /\ header (lit "Authorization")
       (fetch_headers (submission_mail env (lit "undefined") n e c it m))
     = Some (lit "Bearer undefined").
Proof.
  intros Hm Hv Ei En Ee Ec Em Ef Hok Hj Hl. split; [|reflexivity].
  assert (Et : outcome (getAccessToken env) = Ok JUndefined).
  { unfold getAccessToken, do_fetch. rewrite bind_run.
    cbn [outcome trace fst snd]. rewrite Ef, Hok. cbn [negb].
    rewrite Hj, bind_lift_ok. cbn [get outcome ret snd]. now rewrite Hl. }
  rewrite (valid_handler_run env req it n e c m Hm Hv Ei En Ee Ec Em).
  rewrite (deliver_mail_run env req it n e c m Hv En Ee Ec Em
             JUndefined (lit "undefined") Et eq_refl).
  destruct (outcome (sendEmail env JUndefined _ _ _ _));
    cbn [outcome snd trace fst fetches]; rewrite !fetches_app;
    replace (fetches (submission_log n e c it m)) with (@nil fetch_request)
      by reflexivity;
    reflexivity.
Qed.

(** X21.  A refused mail request is recorded for the operator and hidden
    from the client: when the token request yields a token and the mail
    endpoint answers with a status that is not [ok] and a text [t], the
    handler has sent both requests, logs the line [Email sending failed:]
    with the message of [sendEmail], which carries the status and [t],
    does not log a success, and answers 200 with the fixed body of a
    delayed delivery. *)
Theorem mail_refusal_logged (env : environment) (req : request)
    (it n e c m : jsstring) (tok : value) (bearer : jsstring)
    (r : fetch_response) (t : jsstring) :
  method req <> lit "OPTIONS" ->
  valid_submission req ->
  interests_text (submitted req (lit "interests")) = Ok it ->
  to_string (submitted req (lit "name")) = Ok n ->
  to_string (submitted req (lit "email")) = Ok e ->
  to_string (or_else (submitted req (lit "company")) not_provided) = Ok c ->
  to_string (submitted req (lit "message")) = Ok m ->
  outcome (getAccessToken env) = Ok tok ->
  to_string tok = Ok bearer ->
  fetch env (submission_mail env bearer n e c it m) = Ok r ->
  ok r = false ->
  text r = Ok t ->
  handler env req =
    (ELog [LStr (lit "Contact form submission received")]
       :: submission_log n e c it m
       ++ [ EFetch (token_request env);
            EFetch (submission_mail env bearer n e c it m);
            ELog [ LStr (lit "Email sending failed:");
                   LStr (lit "Failed to send email: "
                         ++ number_toString (status_code r)
                         ++ lit " - " ++ t) ] ],
     Ok {| status := 200; res_headers := json_headers req;
           res_body := Some delayed_body |}).
Proof.
  intros Hm Hv Ei En Ee Ec Em Et Eb Ef Hok Ht.
  rewrite (valid_handler_run env req it n e c m Hm Hv Ei En Ee Ec Em).
  rewrite (deliver_mail_run env req it n e c m Hv En Ee Ec Em tok bearer Et Eb).
  assert (Es : outcome (sendEmail env tok (senderEmail env) (ownerEmail env)
                          (subject_of (spec_escape it) (spec_escape n))
                          (htmlBody_of (spec_escape n) (spec_escape e)
                             (spec_escape c) (spec_escape it)
                             (br_newlines (spec_escape m))))
               = Throw (Err (lit "Failed to send email: "
                             ++ number_toString (status_code r)
                             ++ lit " - " ++ t))).
  { unfold sendEmail. rewrite Eb, bind_lift_ok. unfold do_fetch.
    rewrite bind_run. cbn [outcome trace fst snd].
    unfold submission_mail in Ef. now rewrite Ef, Hok, Ht. }
  now rewrite Es.
Qed.

(** ** Requests and statuses of every run *)

Lemma well_formed_not_ill_formed (req : request) :
  email_well_formed req -> ~ email_ill_formed req.
Proof.
  intros (s & Hs & Hp) (s' & Hs' & Hn). rewrite Hs in Hs'.
  injection Hs' as <-. contradiction.
Qed.

Lemma regex_test_false_ill_formed (req : request) :
  regex_test emailRegex (submitted req (lit "email")) = Ok false ->
  email_ill_formed req.
Proof.
  unfold regex_test, email_ill_formed.
  destruct (to_string (submitted req (lit "email"))) as [s|e] eqn:Hs;
    [|discriminate].
  cbn [rbind]. intros E. exists s. split; [reflexivity|].
  rewrite <- emailRegex_spec. injection E as ->. discriminate.
Qed.

Lemma regex_test_throws (req : request) (err : exn) :
  regex_test emailRegex (submitted req (lit "email")) = Throw err ->
  ~ email_well_formed req /\ ~ email_ill_formed req /\ convertible req = false.
Proof.
  unfold regex_test, email_well_formed, email_ill_formed, convertible.
  destruct (to_string (submitted req (lit "email"))) as [s|e] eqn:Hs;
    [discriminate|].
  intros _. split; [intros (s & Hs' & _); discriminate|].
  split; [intros (s & Hs' & _); discriminate|].
  cbn [converts]. now rewrite !andb_false_r.
Qed.

(** X4.  The requests of every run: the handler sends nothing, or the
    token request alone, or the token request followed by one mail request
    from the sender to the owner; whenever it answers with a status other
    than 200 it has sent nothing. *)
Theorem request_discipline (env : environment) (req : request) :
  (fetches (trace (handler env req)) = []
   \/ fetches (trace (handler env req)) = [token_request env]
   \/ exists bearer subject html,
        fetches (trace (handler env req)) =
          [ token_request env;
            mail_request bearer (senderEmail env) (ownerEmail env)
              subject html ])
  /\ (answered (handler env req) <> Some 200 ->
      fetches (trace (handler env req)) = []).
Proof.
  destruct (str_eqb (method req) (lit "OPTIONS")) eqn:Hm.
  { apply str_eqb_eq in Hm. rewrite (handler_preflight env req Hm).
    split; [now left | reflexivity]. }
  assert (Hm' : method req <> lit "OPTIONS").
  { intros E. rewrite E, str_eqb_refl in Hm. discriminate. }
  unfold answered.
  rewrite (handler_fetches env req Hm'), (handler_outcome env req Hm').
  destruct (truthy (submitted req (lit "honeypot"))) eqn:Hh.
  { rewrite (process_honeypot env req _ Hh). split; [now left | reflexivity]. }
  destruct (missing_required req) eqn:Hmiss.
  { rewrite (process_missing env req _ Hh Hmiss).
    split; [now left | reflexivity]. }
  rewrite (process_checked env req _ Hh Hmiss).
  destruct (regex_test emailRegex (submitted req (lit "email"))) as [[|]|err];
    [|split; [now left | reflexivity] ..].
  destruct (convertible req) eqn:Hc.
  - destruct (accepted_convertible env req (json_headers req) Hc)
      as (it & n & e & c & m & Ei & En & Ee & Ec & Em & -> & ->).
    destruct (missing_required_false req Hmiss) as (Tn & Te & Tm).
    rewrite (deliver_fetches env (json_headers req) _ _ _ _ it n e c m _ _
               Tn Te Tm En Ee Ec Em), guarded_outcome.
    split; [|intros Hn; now contradiction Hn].
    destruct (outcome (getAccessToken env)) as [tok|]; [|now right; left].
    destruct (to_string tok) as [bearer|]; [|now right; left].
    right; right. exists bearer. eexists. eexists. reflexivity.
  - destruct (accepted_unconvertible env req (json_headers req) Hc) as [-> _].
    split; [now left | reflexivity].
Qed.

(** X5.  The status of every request that is not a preflight: 200 exactly
    when the honeypot is filled or the three required fields are present,
    the e-mail is well formed and the fields convert; 400 exactly when the
    honeypot is empty and a required field is missing or the e-mail, read
    as a string, fails the check; 500 exactly when the honeypot is empty,
    the required fields are present, and a field does not convert while
    the e-mail does not fail the check. *)
Theorem status_table (env : environment) (req : request) :
  method req <> lit "OPTIONS" ->
  (answered (handler env req) = Some 200 <->
   truthy (submitted req (lit "honeypot")) = true
   \/ (missing_required req = false /\ email_well_formed req
       /\ convertible req = true))
  /\ (answered (handler env req) = Some 400 <->
      truthy (submitted req (lit "honeypot")) = false
      /\ (missing_required req = true \/ email_ill_formed req))
  /\ (answered (handler env req) = Some 500 <->
      truthy (submitted req (lit "honeypot")) = false
      /\ missing_required req = false
      /\ ~ email_ill_formed req
      /\ convertible req = false).
Proof.
  intros Hm. unfold answered. rewrite (handler_outcome env req Hm).
  destruct (truthy (submitted req (lit "honeypot"))) eqn:Hh.
  { rewrite (process_honeypot env req _ Hh). cbn.
    repeat split; try tauto; try discriminate; intros [? _]; discriminate. }
  destruct (missing_required req) eqn:Hmiss.
  { rewrite (process_missing env req _ Hh Hmiss). cbn.
    repeat split; try tauto; try discriminate;
      intuition discriminate. }
  rewrite (process_checked env req _ Hh Hmiss).
  destruct (regex_test emailRegex (submitted req (lit "email")))
    as [[|]|err] eqn:Er.
  - apply regex_test_well_formed in Er.
    pose proof (well_formed_not_ill_formed req Er) as Hn.
    destruct (convertible req) eqn:Hc.
    + destruct (accepted_convertible env req (json_headers req) Hc)
        as (it & _ & _ & _ & _ & _ & _ & _ & _ & _ & _ & ->).
      rewrite guarded_outcome. cbn.
      repeat split; try tauto; try discriminate; intuition discriminate.
    + destruct (accepted_unconvertible env req (json_headers req) Hc)
        as [_ [err ->]].
      cbn. repeat split; try tauto; try discriminate; intuition discriminate.
  - pose proof (regex_test_ill_formed req Er) as Hn.
    apply regex_test_false_ill_formed in Er. cbn.
    repeat split; try tauto; try discriminate; intuition discriminate.
  - apply regex_test_throws in Er as (Hw & Hi & Hc). cbn.
    repeat split; try tauto; try discriminate; intuition discriminate.
Qed.

(** X6.  The body of every answer to a request that is not a preflight:
    the answer carries the JSON headers and a body whose [success] is true
    exactly when the status is 200, and which otherwise is the failure
    body with an error message. *)
Theorem success_flag (env : environment) (req : request) :
  method req <> lit "OPTIONS" ->
  exists r b,
    outcome (handler env req) = Ok r
    /\ res_headers r = json_headers req
    /\ res_body r = Some b
    /\ get b (lit "success") = JBool (status r =? 200)
    /\ (status r <> 200 -> exists msg, b = failure_body msg).
Proof.
  intros Hm. rewrite (handler_outcome env req Hm).
  destruct (truthy (submitted req (lit "honeypot"))) eqn:Hh.
  { rewrite (process_honeypot env req _ Hh). eexists. eexists.
    repeat split. intros Hn. now contradiction Hn. }
  destruct (missing_required req) eqn:Hmiss.
  { rewrite (process_missing env req _ Hh Hmiss). eexists. eexists.
    repeat split. intros _. now eexists. }
  rewrite (process_checked env req _ Hh Hmiss).
  destruct (regex_test emailRegex (submitted req (lit "email"))) as [[|]|err].
  - destruct (convertible req) eqn:Hc.
    + destruct (accepted_convertible env req (json_headers req) Hc)
        as (it & _ & _ & _ & _ & _ & _ & _ & _ & _ & _ & ->).
      rewrite guarded_outcome. eexists. eexists.
      split; [reflexivity|]. split; [reflexivity|]. split; [reflexivity|].
      split; [now destruct (outcome (deliver _ _ _ _ _ _ _ _ _))|].
      intros Hn. now contradiction Hn.
    + destruct (accepted_unconvertible env req (json_headers req) Hc)
        as [_ [err ->]].
      eexists. eexists. repeat split. intros _. now eexists.
  - eexists. eexists. repeat split. intros _. now eexists.
  - eexists. eexists. repeat split. intros _. now eexists.
Qed.

(** ** Origins *)

Lemma handler_headers (env : environment) (req : request) :
  exists r,
    outcome (handler env req) = Ok r
    /\ (res_headers r = corsHeaders req \/ res_headers r = json_headers req).
Proof.
  destruct (str_eqb (method req) (lit "OPTIONS")) eqn:Hm.
  - apply str_eqb_eq in Hm. rewrite (handler_preflight env req Hm).
    eexists. split; [reflexivity | now left].
  - assert (Hm' : method req <> lit "OPTIONS").
    { intros E. rewrite E, str_eqb_refl in Hm. discriminate. }
    rewrite (handler_outcome env req Hm').
    destruct (outcome (process env req (json_headers req))) as [r|e] eqn:E.
    + exists r. split; [reflexivity|]. right.
      apply (process_answer env req _ r E).
    + eexists. split; [reflexivity | now right].
Qed.

(** X7.  An allowed origin is reflected: when the origin of the request,
    read from the header [origin] or, when that one is absent or empty,
    from the header [Origin], is one of the three allowed origins, every
    answer of the handler carries it in [Access-Control-Allow-Origin],
    together with the fixed methods and headers. *)
Theorem allowed_origin_reflected (env : environment) (req : request)
    (o : jsstring) :
  origin req = Some o ->
  In o allowedOrigins ->
  exists r,
    outcome (handler env req) = Ok r
    /\ header (lit "Access-Control-Allow-Origin") (res_headers r) = Some o
    /\ header (lit "Access-Control-Allow-Methods") (res_headers r)
       = Some (lit "POST, OPTIONS")
    /\ header (lit "Access-Control-Allow-Headers") (res_headers r)
       = Some (lit "Content-Type").
Proof.
  intros Ho Hin.
  assert (Hc : corsOrigin req = o).
  { unfold corsOrigin. rewrite Ho.
    apply includes_In in Hin. now rewrite Hin. }
  destruct (handler_headers env req) as (r & Hr & [Hh | Hh]);
    exists r; rewrite Hh; (split; [exact Hr|]);
    unfold json_headers, corsHeaders; rewrite Hc; repeat split.
Qed.

(** ** The simple handler *)

(** X8.  The simple handler never sends a request; it answers 200 exactly
    when the three required fields are present and the e-mail is well
    formed, and, having no handler of exceptions, it throws exactly when
    the required fields are present and the e-mail does not convert to a
    string. *)
Theorem contact_handler_effects (env : environment) (req : request) :
  fetches (trace (contact_handler env req)) = []
  /\ (answered (contact_handler env req) = Some 200 <->
      missing_required req = false /\ email_well_formed req)
  /\ (throws (contact_handler env req) <->
      missing_required req = false
      /\ converts (to_string (submitted req (lit "email"))) = false).
Proof.
  split; [apply contact_handler_fetches|].
  unfold answered, throws. rewrite contact_handler_outcome.
  destruct (missing_required req); [settle|].
  destruct (regex_test emailRegex (submitted req (lit "email")))
    as [[|]|err] eqn:Er.
  - pose proof (proj1 (regex_test_well_formed req) Er) as Hw.
    destruct Hw as (s & Hs & Hp). rewrite Hs. settle.
    exists s. now split.
  - pose proof (regex_test_ill_formed req Er) as Hn.
    unfold regex_test in Er.
    destruct (to_string (submitted req (lit "email"))); [|discriminate].
    settle.
  - pose proof (regex_test_throws req err Er) as (Hw & _ & _).
    unfold regex_test in Er.
    destruct (to_string (submitted req (lit "email"))); [discriminate|].
    settle.
Qed.

(** ** The texts of the mail *)

Lemma join_cons (sep : jsstring) (x y : value) (rest : list value) :
  join sep (x :: y :: rest) =
    rbind (element_string x) (fun s =>
      rbind (join sep (y :: rest)) (fun t => Ok (s ++ sep ++ t))).
Proof. reflexivity. Qed.

Lemma join_strings (sep : jsstring) (x : jsstring) (l : list jsstring) :
  join sep (JStr x :: map JStr l) = Ok (separated sep (x :: l)).
Proof.
  revert x. induction l as [|y l IH]; intros x.
  - cbn. now rewrite app_nil_r.
  - cbn [map]. rewrite join_cons, IH. cbn [element_string to_string rbind].
    cbn [separated flat_map]. now rewrite <- app_assoc.
Qed.


Lemma message_markup_no_newline (c : char) : ~ In c_nl (message_markup c).
Proof.
  unfold message_markup. destruct (c =? c_nl) eqn:E.
  - intros Hin. vm_compute in Hin. intuition discriminate.
  - apply N.eqb_neq in E. unfold spec_entity.
    destruct (c =? c_amp); [|destruct (c =? c_lt);
      [|destruct (c =? c_gt); [|destruct (c =? c_quot);
        [|destruct (c =? c_apos)]]]];
      intros Hin; vm_compute in Hin; intuition (try discriminate; congruence).
Qed.

Lemma br_newlines_entity (c : char) :
  br_newlines (spec_entity c) = message_markup c.
Proof.
  unfold message_markup, spec_entity.
  destruct (c =? c_amp) eqn:E1;
    [apply N.eqb_eq in E1; now subst|].
  destruct (c =? c_lt) eqn:E2; [apply N.eqb_eq in E2; now subst|].
  destruct (c =? c_gt) eqn:E3; [apply N.eqb_eq in E3; now subst|].
  destruct (c =? c_quot) eqn:E4; [apply N.eqb_eq in E4; now subst|].
  destruct (c =? c_apos) eqn:E5; [apply N.eqb_eq in E5; now subst|].
  unfold br_newlines, replace_class. cbn [flat_map existsb].
  rewrite orb_false_r, app_nil_r. now destruct (c =? c_nl).
Qed.

Lemma message_markup_text (m : jsstring) :
  br_newlines (spec_escape m) = flat_map message_markup m
  /\ ~ In c_nl (flat_map message_markup m).
Proof.
  split.
  - unfold spec_escape. induction m as [|c m IH]; [reflexivity|].
    cbn [flat_map]. rewrite <- IH, <- br_newlines_entity.
    unfold br_newlines, replace_class. apply flat_map_app.
  - intros Hin. apply in_flat_map in Hin as (c & _ & Hc).
    exact (message_markup_no_newline c Hc).
Qed.

(** X10.  The message of the mail: escaping the message and then turning
    its line breaks into [br] elements is one pass over the message that
    maps a line break to [br] and each special character to its entity;
    the result contains no line break. *)
Theorem message_markup_spec (m : jsstring) :
  exists escaped,
    escapeHtml (JStr m) = Ok escaped
    /\ br_newlines escaped = flat_map message_markup m
    /\ ~ In c_nl (br_newlines escaped).
Proof.
  exists (spec_escape m). split; [apply escapeHtml_string|].
  destruct (message_markup_text m) as [E Hn].
  split; [exact E|]. now rewrite E.
Qed.

Lemma to_string_array (items : list value) :
  to_string (JArr items) = join (lit ",") items.
Proof.
  cbn [to_string]. induction items as [|x rest IH]; [reflexivity|].
  cbn [join]. rewrite <- IH. unfold element_string, rbind.
  destruct x; try reflexivity; destruct rest; reflexivity.
Qed.

(** A character and the rest of a text are determined by the escaped
    character followed by anything: the entities all start with an
    ampersand, differ in their second character, and no other character
    escapes to an ampersand. *)
Lemma spec_entity_prefix (c1 c2 : char) (r1 r2 : jsstring) :
  spec_entity c1 ++ r1 = spec_entity c2 ++ r2 -> c1 = c2 /\ r1 = r2.
Proof.
  unfold spec_entity.
  destruct (c1 =? c_amp) eqn:A1; [|destruct (c1 =? c_lt) eqn:A2;
    [|destruct (c1 =? c_gt) eqn:A3; [|destruct (c1 =? c_quot) eqn:A4;
      [|destruct (c1 =? c_apos) eqn:A5]]]];
  (destruct (c2 =? c_amp) eqn:B1; [|destruct (c2 =? c_lt) eqn:B2;
    [|destruct (c2 =? c_gt) eqn:B3; [|destruct (c2 =? c_quot) eqn:B4;
      [|destruct (c2 =? c_apos) eqn:B5]]]]);
  repeat match goal with
         | E : (_ =? _) = true |- _ => apply N.eqb_eq in E
         | E : (_ =? _) = false |- _ => apply N.eqb_neq in E
         end;
  subst; intros E; vm_compute in E;
  try discriminate E;
  try (injection E as E; subst; try tauto; exfalso; congruence).
Qed.

Lemma spec_entity_not_nil (c : char) : spec_entity c <> [].
Proof.
  unfold spec_entity.
  destruct (c =? c_amp); [discriminate|]. destruct (c =? c_lt); [discriminate|].
  destruct (c =? c_gt); [discriminate|]. destruct (c =? c_quot); [discriminate|].
  destruct (c =? c_apos); discriminate.
Qed.

Lemma spec_escape_injective (a b : jsstring) :
  spec_escape a = spec_escape b -> a = b.
Proof.
  unfold spec_escape. revert b.
  induction a as [|x a IH]; intros [|y b] E; cbn [flat_map] in E.
  - reflexivity.
  - symmetry in E. apply app_eq_nil in E as [E _].
    now apply spec_entity_not_nil in E.
  - apply app_eq_nil in E as [E _]. now apply spec_entity_not_nil in E.
  - apply spec_entity_prefix in E as [-> E]. f_equal. now apply IH.
Qed.

(** X11.  [escapeHtml] loses nothing: two strings with the same escaped
    text are the same string. *)
Theorem escapeHtml_injective (a b : jsstring) :
  escapeHtml (JStr a) = escapeHtml (JStr b) -> a = b.
Proof.
  rewrite !escapeHtml_string. intros E. injection E as E.
  now apply spec_escape_injective.
Qed.

(** ** [encodeURIComponent] *)

Lemma hex_digit_safe (n : N) : n < 16 -> uri_safe (hex_digit n) = true.
Proof.
  intros Hn. destruct n as [|p]; [reflexivity|].
  do 4 (destruct p as [p|p|]; try reflexivity); exfalso; lia.
Qed.

Lemma percent_safe (byte : N) :
  byte < 256 -> Forall (fun c => uri_safe c = true) (percent byte).
Proof.
  intros Hb. unfold percent. repeat constructor.
  - apply hex_digit_safe. apply N.Div0.div_lt_upper_bound. lia.
  - apply hex_digit_safe. apply N.mod_lt. discriminate.
Qed.

Lemma utf8_bytes (cp : N) :
  cp < 1114112 -> Forall (fun b => b < 256) (utf8 cp).
Proof.
  intros Hc. unfold utf8.
  pose proof (N.mod_lt cp 64) as M0.
  pose proof (N.mod_lt (cp / 64) 64) as M1.
  pose proof (N.mod_lt (cp / 4096) 64) as M2.
  destruct (cp <? 128) eqn:E1; [apply N.ltb_lt in E1; repeat constructor; lia|].
  destruct (cp <? 2048) eqn:E2.
  { apply N.ltb_lt in E2.
    assert (cp / 64 < 32) by (apply N.Div0.div_lt_upper_bound; lia).
    repeat constructor; lia. }
  destruct (cp <? 65536) eqn:E3.
  { apply N.ltb_lt in E3.
    assert (cp / 4096 < 16) by (apply N.Div0.div_lt_upper_bound; lia).
    repeat constructor; lia. }
  assert (cp / 262144 < 5) by (apply N.Div0.div_lt_upper_bound; lia).
  repeat constructor; lia.
Qed.

Lemma escaped_safe (cp : N) :
  cp < 1114112 ->
  Forall (fun c => uri_safe c = true) (flat_map percent (utf8 cp)).
Proof.
  intros Hc. pose proof (utf8_bytes cp Hc) as Hb.
  induction Hb as [|b l Hb _ IH]; [constructor|].
  cbn [flat_map]. apply Forall_app. split; [now apply percent_safe | exact IH].
Qed.

Lemma code_point_bound (hi lo : char) :
  is_high_surrogate hi = true -> is_low_surrogate lo = true ->
  code_point hi lo < 1114112.
Proof.
  unfold is_high_surrogate, is_low_surrogate, code_point.
  intros Hh Hl. apply andb_true_iff in Hh as [H1 H2], Hl as [L1 L2].
  apply N.leb_le in H1, H2, L1, L2. lia.
Qed.

(** A property of every string follows from the property of the empty
    string and of the strings with one or two more characters in front. *)
Lemma two_step_induction (P : jsstring -> Prop) :
  P [] ->
  (forall c, P [c]) ->
  (forall c d s, P s -> P (d :: s) -> P (c :: d :: s)) ->
  forall s, P s.
Proof.
  intros H0 H1 H2 s.
  assert (HP : P s /\ forall c, P (c :: s)).
  { induction s as [|d s [IHs IHc]]; [now split|].
    split; [apply IHc|]. intros c. now apply H2. }
  exact (proj1 HP).
Qed.

Lemma encodeURIComponent_cons (c d : char) (s : jsstring) :
  encodeURIComponent (c :: d :: s) =
    if uri_unreserved c then
      rbind (encodeURIComponent (d :: s)) (fun t => Ok (c :: t))
    else if is_low_surrogate c then Throw uri_error
    else if is_high_surrogate c then
      if is_low_surrogate d then
        rbind (encodeURIComponent s) (fun t =>
          Ok (flat_map percent (utf8 (code_point c d)) ++ t))
      else Throw uri_error
    else
      rbind (encodeURIComponent (d :: s)) (fun t =>
        Ok (flat_map percent (utf8 c) ++ t)).
Proof. reflexivity. Qed.

Lemma encodeURIComponent_safe (s : jsstring) :
  code_units s ->
  forall t, encodeURIComponent s = Ok t -> Forall (fun c => uri_safe c = true) t.
Proof.
  unfold code_units.
  induction s as [|c|c d s IHs IHd] using two_step_induction; intros Hs t.
  - intros [= <-]. constructor.
  - cbn [encodeURIComponent rbind]. inversion Hs as [|? ? Hc _]; subst.
    destruct (uri_unreserved c) eqn:U.
    + intros [= <-]. repeat constructor. unfold uri_safe. now rewrite U.
    + destruct (is_low_surrogate c); [discriminate|].
      destruct (is_high_surrogate c); [discriminate|].
      intros [= <-]. rewrite app_nil_r. apply escaped_safe. lia.
  - inversion Hs as [|? ? Hc Hs']; subst.
    inversion Hs' as [|? ? Hd Hs'']; subst.
    rewrite encodeURIComponent_cons.
    destruct (uri_unreserved c) eqn:U.
    + destruct (encodeURIComponent (d :: s)) as [t'|] eqn:E; [|discriminate].
      intros [= <-]. constructor; [unfold uri_safe; now rewrite U|].
      now apply IHd.
    + destruct (is_low_surrogate c); [discriminate|].
      destruct (is_high_surrogate c) eqn:Hh.
      * destruct (is_low_surrogate d) eqn:Hl; [|discriminate].
        destruct (encodeURIComponent s) as [t'|] eqn:E; [|discriminate].
        intros [= <-]. apply Forall_app. split.
        -- apply escaped_safe. now apply code_point_bound.
        -- now apply IHs.
      * destruct (encodeURIComponent (d :: s)) as [t'|] eqn:E; [|discriminate].
        intros [= <-]. apply Forall_app. split.
        -- apply escaped_safe. lia.
        -- now apply IHd.
Qed.

Lemma unreserved_not_surrogate (c : char) :
  uri_unreserved c = true ->
  is_low_surrogate c = false /\ is_high_surrogate c = false.
Proof.
  unfold uri_unreserved, is_alnum, is_low_surrogate, is_high_surrogate.
  cbn [existsb]. intros U.
  destruct (N.leb_spec 55296 c) as [Hc|Hc]; [|split].
  - exfalso. revert U.
    repeat match goal with
           | |- context [?a <=? ?b] =>
               destruct (N.leb_spec a b); try lia; cbn [andb orb]
           | |- context [?a =? ?b] =>
               destruct (N.eqb_spec a b); try lia; cbn [andb orb]
           end; discriminate.
  - destruct (N.leb_spec 56320 c); [lia | reflexivity].
  - reflexivity.
Qed.


Lemma converts_rbind (r : result jsstring) (f : jsstring -> jsstring) :
  converts (rbind r (fun t => Ok (f t))) = converts r.
Proof. now destruct r. Qed.

Lemma encodeURIComponent_converts (s : jsstring) :
  converts (encodeURIComponent s) = well_paired s.
Proof.
  induction s as [|c|c d s IHs IHd] using two_step_induction.
  - reflexivity.
  - cbn [encodeURIComponent well_paired rbind].
    destruct (uri_unreserved c) eqn:U.
    + destruct (unreserved_not_surrogate c U) as [-> ->]. reflexivity.
    + destruct (is_low_surrogate c); [reflexivity|].
      destruct (is_high_surrogate c); reflexivity.
  - rewrite encodeURIComponent_cons.
    change (well_paired (c :: d :: s)) with
      (if is_low_surrogate c then false
       else if is_high_surrogate c then is_low_surrogate d && well_paired s
       else well_paired (d :: s)).
    destruct (uri_unreserved c) eqn:U.
    + destruct (unreserved_not_surrogate c U) as [-> ->].
      now rewrite (converts_rbind _ (fun t => c :: t)).
    + destruct (is_low_surrogate c); [reflexivity|].
      destruct (is_high_surrogate c).
      * destruct (is_low_surrogate d); [|reflexivity].
        now rewrite (converts_rbind _ (fun t => _ ++ t)).
      * now rewrite (converts_rbind _ (fun t => _ ++ t)).
Qed.

Lemma encodeURIComponent_error (s : jsstring) (e : exn) :
  encodeURIComponent s = Throw e -> e = uri_error.
Proof.
  induction s as [|c|c d s IHs IHd] using two_step_induction.
  - discriminate.
  - cbn [encodeURIComponent rbind].
    destruct (uri_unreserved c); [discriminate|].
    destruct (is_low_surrogate c); [congruence|].
    destruct (is_high_surrogate c); [congruence | discriminate].
  - rewrite encodeURIComponent_cons.
    destruct (uri_unreserved c).
    { destruct (encodeURIComponent (d :: s)); [discriminate|].
      cbn [rbind]. intros [= <-]. now apply IHd. }
    destruct (is_low_surrogate c); [congruence|].
    destruct (is_high_surrogate c).
    + destruct (is_low_surrogate d); [|congruence].
      destruct (encodeURIComponent s); [discriminate|].
      cbn [rbind]. intros [= <-]. now apply IHs.
    + destruct (encodeURIComponent (d :: s)); [discriminate|].
      cbn [rbind]. intros [= <-]. now apply IHd.
Qed.

(** [encodeURIComponent], as the form script uses it, fails exactly
    on a string with a surrogate that is not half of a pair, and then with
    a [URIError]; on every other string it returns a result. *)
Lemma encodeURIComponent_throws_iff (s : jsstring) :
  (encodeURIComponent s = Throw uri_error <-> well_paired s = false)
  /\ ((exists t, encodeURIComponent s = Ok t) <-> well_paired s = true).
Proof.
  pose proof (encodeURIComponent_converts s) as E.
  destruct (encodeURIComponent s) as [t|e] eqn:Er; cbn [converts] in E;
    rewrite <- E.
  - split; split; try discriminate; try reflexivity. intros _. now exists t.
  - rewrite (encodeURIComponent_error s e Er).
    split; split; try reflexivity; try discriminate.
    intros [t Ht]. discriminate.
Qed.

(** An encoded component is made of unreserved characters and
    percent escapes only: on a string of code units, the result of
    [encodeURIComponent] contains no ampersand, question mark, equals
    sign, number sign, space or line break. *)
Lemma encoded_component_safe (s t : jsstring) :
  code_units s ->
  encodeURIComponent s = Ok t ->
  Forall (fun c => uri_safe c = true) t
  /\ Forall (fun c => ~ In c t) [38; 63; 61; 35; 32; 10; 13].
Proof.
  intros Hs Ht. pose proof (encodeURIComponent_safe s Hs t Ht) as Hsafe.
  split; [exact Hsafe|].
  rewrite Forall_forall in Hsafe.
  repeat constructor; intros Hin; apply Hsafe in Hin; discriminate.
Qed.

(** ** The submit handler of the form *)

(** X12.  The requests of the form script: it sends nothing when the
    honeypot input is filled, and otherwise exactly one request, a POST to
    [/api/contact]; the body it sends has neither a [honeypot] nor a
    [website] property, so the value of the honeypot input never reaches
    the server. *)
Theorem submit_posts (net : fetch_request -> result fetch_response) (f : form) :
  posts (fst (submit net f))
  = (if truthy (entry (form_website f)) then [] else [contact_request f])
  /\ get (form_data f) (lit "honeypot") = JUndefined
  /\ get (form_data f) (lit "website") = JUndefined.
Proof.
  split; [|split; reflexivity].
  unfold submit. destruct (truthy (entry (form_website f))); [reflexivity|].
  destruct (net (contact_request f)) as [r|e]; [destruct (ok r)|];
    try reflexivity;
    destruct (mailto (form_data f)); reflexivity.
Qed.

(** X13.  The fallback of the form script: with an empty honeypot, the
    script resets the form exactly when the server answered with an [ok]
    status, and then it navigates nowhere; otherwise it keeps the form and
    navigates to the [mailto] address, unless building that address
    throws. *)
Theorem submit_fallback (net : fetch_request -> result fetch_response) (f : form) :
  truthy (entry (form_website f)) = false ->
  (In ResetForm (fst (submit net f)) <-> accepted_by net f = true)
  /\ navigations (fst (submit net f)) =
       (if accepted_by net f then []
        else match mailto (form_data f) with
             | Ok href => [href]
             | Throw _ => []
             end).
Proof.
  intros Hh. unfold submit, accepted_by. rewrite Hh.
  assert (Hfall : forall P : Prop,
            (In ResetForm
               (fst (let (after, r) :=
                       match mailto (form_data f) with
                       | Ok href =>
                           ([ Navigate href;
                              SetText FormStatus
                                (lit "Opening your email client...");
                              SetClass FormStatus (lit "form-status success") ]
                              ++ reenable, Ok tt)
                       | Throw e => ([], Throw e)
                       end in
                     ([ SetDisabled SubmitBtn true;
                        SetDisplay BtnText (lit "none");
                        SetDisplay BtnLoading (lit "inline");
                        SetClass FormStatus (lit "form-status");
                        SetDisplay FormStatus (lit "none") ]
                        ++ Post (contact_request f) :: after, r)))
             <-> false = true)).
  { intros _. destruct (mailto (form_data f)); cbn; split;
      intuition discriminate. }
  destruct (net (contact_request f)) as [r|e]; [destruct (ok r)|].
  - split; [|reflexivity]. cbn. tauto.
  - split; [apply (Hfall True)|]. now destruct (mailto (form_data f)).
  - split; [apply (Hfall True)|]. now destruct (mailto (form_data f)).
Qed.

(** The texts of the fallback, for the data of a form. *)

Lemma to_string_entry (x : option jsstring) :
  to_string (entry x)
  = Ok match x with Some s => s | None => lit "null" end.
Proof. now destruct x. Qed.

Lemma to_string_or_else_entry (x : option jsstring) (d : jsstring) :
  d <> [] ->
  to_string (or_else (entry x) (JStr d))
  = Ok match x with Some (c :: s) => c :: s | _ => d end.
Proof. intros Hd. destruct x as [[|c s]|]; reflexivity. Qed.

Lemma join_map_strings (sep : jsstring) (l : list jsstring) :
  join sep (map JStr l) = Ok (separated sep l).
Proof. destruct l as [|x l]; [reflexivity | apply join_strings]. Qed.

Lemma code_units_lit (s : string) : code_units (lit s).
Proof.
  unfold code_units, lit. apply Forall_forall. intros c Hc.
  apply in_map_iff in Hc as (a & <- & _).
  pose proof (N_ascii_bounded a). lia.
Qed.

Lemma code_units_app (a b : jsstring) :
  code_units a -> code_units b -> code_units (a ++ b).
Proof. intros Ha Hb. apply Forall_app. now split. Qed.

Lemma code_units_separated (sep : jsstring) (l : list jsstring) :
  code_units sep -> Forall code_units l -> code_units (separated sep l).
Proof.
  intros Hs Hl. destruct Hl as [|x l Hx Hl]; [constructor|].
  cbn [separated]. apply code_units_app; [exact Hx|].
  induction Hl as [|y l Hy _ IH]; [constructor|].
  cbn [flat_map]. repeat apply code_units_app; assumption.
Qed.

Lemma form_data_fields (f : form) :
  get (form_data f) (lit "name") = entry (form_name f)
  /\ get (form_data f) (lit "email") = entry (form_email f)
  /\ get (form_data f) (lit "company") = entry (form_company f)
  /\ get (form_data f) (lit "interests") = JArr (map JStr (form_interest f))
  /\ get (form_data f) (lit "message") = entry (form_message f).
Proof. repeat split. Qed.

Lemma fallback_texts (f : form) :
  exists s b,
    fallback_subject (form_data f) = Ok s
    /\ fallback_body (form_data f) = Ok b
    /\ (form_code_units f -> code_units s /\ code_units b).
Proof.
  unfold fallback_subject, fallback_body.
  destruct (form_data_fields f) as (-> & -> & -> & -> & ->).
  rewrite !to_string_entry. cbn [rbind].
  unfold not_provided.
  rewrite (to_string_or_else_entry (form_company f)) by discriminate.
  cbn [rbind]. rewrite join_map_strings. cbn [rbind].
  change (JStr (separated (lit ", ") (form_interest f)))
    with (entry (Some (separated (lit ", ") (form_interest f)))).
  rewrite !to_string_or_else_entry by discriminate. cbn [rbind].
  eexists. eexists. split; [reflexivity|]. split; [reflexivity|].
  intros (Hn & He & Hc & Hi & Hm).
  assert (Hnull : forall x, field_units x ->
            code_units match x with Some s => s | None => lit "null" end).
  { intros [s|] Hx; [exact Hx | apply code_units_lit]. }
  assert (Hdef : forall x d, field_units x ->
            code_units match x with Some (c :: s) => c :: s | _ => lit d end).
  { intros [[|c s]|] d Hx; [apply code_units_lit | exact Hx | apply code_units_lit]. }
  pose proof (code_units_separated (lit ", ") (form_interest f)
                (code_units_lit _) Hi) as Hsep.
  split.
  - apply code_units_app; [apply code_units_lit | now apply Hnull].
  - repeat apply code_units_app;
      try first [ apply code_units_lit | now apply Hnull | now apply Hdef
                | solve [repeat constructor] ].
    destruct (separated (lit ", ") (form_interest f)) eqn:E;
      [apply code_units_lit | exact Hsep].
Qed.

Lemma mailto_error (f : form) (e : exn) :
  mailto (form_data f) = Throw e -> e = uri_error.
Proof.
  destruct (fallback_texts f) as (s & b & Es & Eb & _).
  unfold mailto. rewrite Es. cbn [rbind].
  destruct (encodeURIComponent s) as [s'|e1] eqn:E1; cbn [rbind].
  - rewrite Eb. cbn [rbind].
    destruct (encodeURIComponent b) as [b'|e2] eqn:E2; cbn [rbind];
      [discriminate|].
    intros [= <-]. now apply encodeURIComponent_error in E2.
  - intros [= <-]. now apply encodeURIComponent_error in E1.
Qed.

(** X14.  The submit button: with an empty honeypot the script disables
    the button first; when it ends normally its last statements re-enable
    the button, and when it ends with an exception (which only the
    encoding of the [mailto] address raises, after a request that failed)
    the button stays disabled. *)
Theorem submit_button (net : fetch_request -> result fetch_response) (f : form) :
  truthy (entry (form_website f)) = false ->
  match snd (submit net f) with
  | Ok _ =>
      disablings (fst (submit net f)) = [true; false]
      /\ exists before, fst (submit net f) = before ++ reenable
  | Throw e =>
      disablings (fst (submit net f)) = [true]
      /\ e = uri_error
      /\ accepted_by net f = false
  end.
Proof.
  intros Hh. unfold submit, accepted_by. rewrite Hh.
  pose proof (mailto_error f) as Herr.
  destruct (net (contact_request f)) as [r|e]; [destruct (ok r)|].
  - cbn [fst snd]. split; [reflexivity|].
    eexists. rewrite app_comm_cons. rewrite app_assoc. reflexivity.
  - destruct (mailto (form_data f)) as [href|e]; cbn [fst snd].
    + split; [reflexivity|]. eexists.
      rewrite app_comm_cons, app_assoc. reflexivity.
    + split; [reflexivity|]. split; [now apply Herr | reflexivity].
  - destruct (mailto (form_data f)) as [href|e']; cbn [fst snd].
    + split; [reflexivity|]. eexists.
      rewrite app_comm_cons, app_assoc. reflexivity.
    + split; [reflexivity|]. split; [now apply Herr | reflexivity].
Qed.

Lemma safe_count (c : char) (t : jsstring) :
  uri_safe c = false ->
  Forall (fun x => uri_safe x = true) t ->
  @count_occ char N.eq_dec t c = 0%nat.
Proof.
  intros Hc Ht. apply count_occ_not_In. intros Hin.
  rewrite Forall_forall in Ht. apply Ht in Hin. congruence.
Qed.

(** X15.  The [mailto] address of the fallback: for a form whose values
    are strings of code units, the address is the fixed mailbox followed
    by the encoded subject and the encoded body, both made of unreserved
    characters and percent escapes, so that whatever the visitor typed the
    address has exactly one question mark and exactly one ampersand: the
    subject and the body are its only two parameters. *)
Theorem mailto_shape (f : form) (href : jsstring) :
  form_code_units f ->
  mailto (form_data f) = Ok href ->
  exists subject body,
    href = lit "mailto:hello@meekertechnologies.com?subject=" ++ subject
           ++ lit "&body=" ++ body
    /\ Forall (fun c => uri_safe c = true) subject
    /\ Forall (fun c => uri_safe c = true) body
    /\ count_occ N.eq_dec href 63 = 1%nat
    /\ count_occ N.eq_dec href 38 = 1%nat.
Proof.
  intros Hf. destruct (fallback_texts f) as (s & b & Es & Eb & Hu).
  destruct (Hu Hf) as [Hs Hb].
  unfold mailto. rewrite Es. cbn [rbind].
  destruct (encodeURIComponent s) as [s'|] eqn:E1; [|discriminate].
  cbn [rbind]. rewrite Eb. cbn [rbind].
  destruct (encodeURIComponent b) as [b'|] eqn:E2; [|discriminate].
  cbn [rbind]. intros E.
  assert (Eh : href = lit "mailto:hello@meekertechnologies.com?subject=" ++ s'
                      ++ lit "&body=" ++ b') by congruence.
  clear E. subst href.
  pose proof (encodeURIComponent_safe s Hs s' E1) as Ss.
  pose proof (encodeURIComponent_safe b Hb b' E2) as Sb.
  exists s', b'. split; [reflexivity|]. split; [exact Ss|]. split; [exact Sb|].
  rewrite !count_occ_app.
  rewrite (safe_count 63 s') by (assumption || reflexivity).
  rewrite (safe_count 63 b') by (assumption || reflexivity).
  rewrite (safe_count 38 s') by (assumption || reflexivity).
  rewrite (safe_count 38 b') by (assumption || reflexivity).
  split; reflexivity.
Qed.

(** ** The form script and the handlers *)

Lemma form_request_fields (f : form) (req : request) :
  body req = form_data f ->
  submitted req (lit "name") = entry (form_name f)
  /\ submitted req (lit "email") = entry (form_email f)
  /\ submitted req (lit "company") = entry (form_company f)
  /\ submitted req (lit "interests") = JArr (map JStr (form_interest f))
  /\ submitted req (lit "message") = entry (form_message f)
  /\ submitted req (lit "honeypot") = JUndefined.
Proof. intros Hb. unfold submitted. rewrite Hb. repeat split. Qed.

Lemma form_request_convertible (f : form) (req : request) :
  body req = form_data f -> convertible req = true.
Proof.
  intros Hb. unfold convertible.
  destruct (form_request_fields f req Hb) as (-> & -> & -> & -> & -> & _).
  rewrite !to_string_entry. unfold not_provided.
  rewrite to_string_or_else_entry by discriminate.
  unfold interests_text.
  destruct (form_interest f) as [|x l]; [reflexivity|].
  cbn [map]. now rewrite join_strings.
Qed.

(** X16.  The data of the form script never takes the server to its
    failure path: on a request that carries the [data] object of the
    script, the honeypot branch of the handler is not taken, every field
    converts, the Graph-mail handler answers 200 or 400, never 500, and
    the simple handler answers with the same status. *)
Theorem form_data_served (env : environment) (f : form) (req : request) :
  method req <> lit "OPTIONS" ->
  body req = form_data f ->
  truthy (submitted req (lit "honeypot")) = false
  /\ convertible req = true
  /\ (answered (handler env req) = Some 200
      \/ answered (handler env req) = Some 400)
  /\ answered (contact_handler env req) = answered (handler env req).
Proof.
  intros Hm Hb.
  pose proof (form_request_convertible f req Hb) as Hc.
  assert (Hh : truthy (submitted req (lit "honeypot")) = false).
  { destruct (form_request_fields f req Hb) as (_ & _ & _ & _ & _ & ->).
    reflexivity. }
  split; [exact Hh|]. split; [exact Hc|].
  unfold answered.
  rewrite (handler_outcome env req Hm), contact_handler_outcome.
  destruct (missing_required req) eqn:Hmiss.
  { rewrite (process_missing env req _ Hh Hmiss). cbn. tauto. }
  rewrite (process_checked env req _ Hh Hmiss).
  destruct (regex_test emailRegex (submitted req (lit "email")))
    as [[|]|err] eqn:Er.
  - destruct (accepted_convertible env req (json_headers req) Hc)
      as (it & _ & _ & _ & _ & _ & _ & _ & _ & _ & _ & ->).
    rewrite guarded_outcome. cbn. tauto.
  - cbn. tauto.
  - apply regex_test_throws in Er as (_ & _ & Hn). congruence.
Qed.

(** ** The markup of the mail *)

Lemma markup_free_count (c : char) (s : jsstring) :
  In c markup_chars -> markup_free s -> @count_occ char N.eq_dec s c = 0%nat.
Proof. intros Hc Hs. apply count_occ_not_In. now apply Hs. Qed.

Lemma count_message_markup (c x : char) :
  In c markup_chars ->
  @count_occ char N.eq_dec (message_markup x) c
  = if x =? c_nl then (if (c =? c_lt) || (c =? c_gt) then 1 else 0)%nat
    else 0%nat.
Proof.
  intros Hc. unfold message_markup. destruct (x =? c_nl).
  - destruct Hc as [<-|[<-|[<-|[<-|[]]]]]; reflexivity.
  - apply markup_free_count; [exact Hc | apply spec_entity_markup_free].
Qed.

Lemma count_breaks (c : char) (m : jsstring) :
  In c markup_chars ->
  @count_occ char N.eq_dec (flat_map message_markup m) c
  = if (c =? c_lt) || (c =? c_gt)
    then @count_occ char N.eq_dec m c_nl else 0%nat.
Proof.
  intros Hc.
  induction m as [|x m IH]; [now destruct ((c =? c_lt) || (c =? c_gt))|].
  cbn [flat_map]. rewrite count_occ_app, IH, (count_message_markup c x Hc).
  destruct (N.eqb_spec x c_nl) as [->|Hx].
  - rewrite count_occ_cons_eq by reflexivity.
    now destruct ((c =? c_lt) || (c =? c_gt)).
  - rewrite count_occ_cons_neq by exact Hx. reflexivity.
Qed.

(** X17.  The markup of the mail is the template's: whatever the fields
    are, the HTML body built from their escaped texts has exactly the two
    double quotes of the [href] attribute, no apostrophe, and the angle
    brackets of the template plus one pair for each line break of the
    message; the subject has none of these characters. *)
Theorem html_body_structure (n e c it m : jsstring) :
  let html :=
    htmlBody_of (spec_escape n) (spec_escape e) (spec_escape c)
      (spec_escape it) (br_newlines (spec_escape m)) in
  @count_occ char N.eq_dec html c_quot = 2%nat
  /\ @count_occ char N.eq_dec html c_apos = 0%nat
  /\ @count_occ char N.eq_dec html c_lt
     = (28 + @count_occ char N.eq_dec m c_nl)%nat
  /\ @count_occ char N.eq_dec html c_gt
     = (28 + @count_occ char N.eq_dec m c_nl)%nat
  /\ markup_free (subject_of (spec_escape it) (spec_escape n)).
Proof.
  assert (Hm : br_newlines (spec_escape m) = flat_map message_markup m).
  { destruct (message_markup_text m) as [E _]. exact E. }
  cbv zeta. rewrite Hm.
  assert (Hcount : forall x, In x markup_chars ->
            @count_occ char N.eq_dec
              (htmlBody_of (spec_escape n) (spec_escape e) (spec_escape c)
                 (spec_escape it) (flat_map message_markup m)) x
            = (@count_occ char N.eq_dec
                 (htmlBody_of [] [] [] [] []) x
               + (if (x =? c_lt) || (x =? c_gt)
                  then @count_occ char N.eq_dec m c_nl else 0))%nat).
  { intros x Hx. unfold htmlBody_of, template_line.
    repeat (rewrite ?count_occ_app, ?count_occ_cons_neq
              by (destruct Hx as [<-|[<-|[<-|[<-|[]]]]]; discriminate)).
    rewrite !(markup_free_count x (spec_escape _))
      by (exact Hx || apply spec_escape_markup_free).
    rewrite (count_breaks x m Hx).
    cbn [count_occ app]. lia. }
  split; [rewrite Hcount by (cbn; tauto); reflexivity|].
  split; [rewrite Hcount by (cbn; tauto); reflexivity|].
  split; [rewrite Hcount by (cbn; tauto); reflexivity|].
  split; [rewrite Hcount by (cbn; tauto); reflexivity|].
  unfold subject_of.
  assert (Hlit : forall s : string,
            forallb (fun c => negb (existsb (N.eqb c) markup_chars)) (lit s)
            = true -> markup_free (lit s)).
  { intros s Hs x Hx Hin. rewrite forallb_forall in Hs.
    apply Hs in Hin. apply negb_true_iff in Hin.
    assert (existsb (N.eqb x) markup_chars = true); [|congruence].
    apply existsb_exists. exists x. split; [exact Hx | apply N.eqb_refl]. }
  repeat apply markup_free_app;
    try apply spec_escape_markup_free; now apply Hlit.
Qed.

(** ** The shape of an accepted address *)

Lemma not_space_at_count (s : jsstring) :
  Forall (fun x => not_space_at x = true) s ->
  @count_occ char N.eq_dec s c_at = 0%nat
  /\ Forall (fun x => is_space x = false) s.
Proof.
  intros Hs. split.
  - apply count_occ_not_In. intros Hin. rewrite Forall_forall in Hs.
    apply Hs in Hin. discriminate.
  - eapply Forall_impl; [|exact Hs]. intros x Hx.
    unfold not_space_at in Hx. apply negb_true_iff, orb_false_iff in Hx.
    apply Hx.
Qed.

(** X18.  What the syntactic check lets through: a field that converts to
    the string [s] passes [emailRegex.test] exactly when [s] has the shape
    of the specification, and then [s] has exactly one at sign, no white
    space and at least five characters. *)
Theorem email_check_shape (v : value) (s : jsstring) :
  to_string v = Ok s ->
  (regex_test emailRegex v = Ok true <-> email_pattern s)
  /\ (email_pattern s ->
      @count_occ char N.eq_dec s c_at = 1%nat
      /\ Forall (fun x => is_space x = false) s
      /\ (5 <= List.length s)%nat).
Proof.
  intros Hs. split; [apply (regex_test_pattern v s Hs)|].
  intros (a & b & c & -> & Ha & Hb & Hc & Fa & Fb & Fc).
  destruct (not_space_at_count a Fa) as [Ca Sa].
  destruct (not_space_at_count b Fb) as [Cb Sb].
  destruct (not_space_at_count c Fc) as [Cc Sc].
  split; [|split].
  - rewrite count_occ_app, count_occ_cons_eq, count_occ_app,
      count_occ_cons_neq by (reflexivity || discriminate).
    rewrite Ca, Cb, Cc. reflexivity.
  - apply Forall_app. split; [exact Sa|]. constructor; [reflexivity|].
    apply Forall_app. split; [exact Sb|]. constructor; [reflexivity | exact Sc].
  - rewrite !length_app. cbn [List.length]. rewrite !length_app. cbn [List.length].
    destruct a; [congruence|]. destruct b; [congruence|].
    destruct c; [congruence|]. cbn [List.length]. lia.
Qed.

(** ** [debounce] *)

Section DebounceProperties.
Context {A : Type} (wait : N) (eager : N -> bool).

Lemma advance_empty (t : N) (p : page (A:=A)) :
  pending p = [] ->
  advance t p =
    {| time_now := N.max (time_now p) t; next_id := next_id p; pending := [];
       timeout := timeout p; calls := calls p |}.
Proof. intros E. unfold advance. rewrite E. cbn. now rewrite E. Qed.

Lemma advance_single (t : N) (p : page (A:=A)) (x : timer (A:=A)) :
  pending p = [x] ->
  timeout p = Some (timer_id x) ->
  advance t p =
    if due x <=? t then
      {| time_now := N.max (N.max (time_now p) (due x)) t;
         next_id := next_id p; pending := []; timeout := timeout p;
         calls := calls p ++ [timer_args x] |}
    else
      {| time_now := N.max (time_now p) t; next_id := next_id p;
         pending := [x]; timeout := timeout p; calls := calls p |}.
Proof.
  intros E Ht. unfold advance. rewrite E. cbn [List.length run_due].
  rewrite E. cbn [earliest]. destruct (due x <=? t); [|now rewrite E].
  unfold later. cbn [timeout]. rewrite Ht. cbn [clearTimeout pending filter].
  rewrite N.eqb_refl. reflexivity.
Qed.

Lemma begin_task_empty (t : N) (p : page (A:=A)) :
  pending p = [] ->
  begin_task eager t p =
    {| time_now := N.max (time_now p) t; next_id := next_id p; pending := [];
       timeout := timeout p; calls := calls p |}.
Proof. intros E. unfold begin_task. rewrite E. cbn. now rewrite E. Qed.

Lemma begin_task_single (t : N) (p : page (A:=A)) (x : timer (A:=A)) :
  pending p = [x] ->
  timeout p = Some (timer_id x) ->
  begin_task eager t p =
    if runs_before eager t x then
      {| time_now := N.max (N.max (time_now p) (due x)) t;
         next_id := next_id p; pending := []; timeout := timeout p;
         calls := calls p ++ [timer_args x] |}
    else
      {| time_now := N.max (time_now p) t; next_id := next_id p;
         pending := [x]; timeout := timeout p; calls := calls p |}.
Proof.
  intros E Ht. unfold begin_task. rewrite E. cbn [List.length run_before].
  rewrite E. cbn [earliest]. destruct (runs_before eager t x); [|now rewrite E].
  unfold later. cbn [timeout]. rewrite Ht. cbn [clearTimeout pending filter].
  rewrite N.eqb_refl. reflexivity.
Qed.

Lemma executed_tidy (a : A) (p : page (A:=A)) :
  tidy p ->
  executedFunction wait a p =
    {| time_now := time_now p; next_id := next_id p + 1;
       pending := [{| timer_id := next_id p; due := time_now p + delay wait;
                      timer_args := a |}];
       timeout := Some (next_id p); calls := calls p |}.
Proof.
  unfold tidy, executedFunction, setTimeout.
  destruct (pending p) as [|x [|y l]] eqn:E; [| |contradiction].
  - intros _. destruct (timeout p); cbn; now rewrite E.
  - intros ->. cbn. rewrite E. cbn. now rewrite N.eqb_refl.
Qed.

Lemma tidy_advance (t : N) (p : page (A:=A)) : tidy p -> tidy (advance t p).
Proof.
  unfold tidy at 1. destruct (pending p) as [|x [|y l]] eqn:E; [| |contradiction].
  - intros _. now rewrite (advance_empty t p E).
  - intros Ht. rewrite (advance_single t p x E Ht).
    now destruct (due x <=? t).
Qed.

Lemma tidy_arrive (c : call (A:=A)) (p : page (A:=A)) :
  tidy p -> tidy (arrive eager c p).
Proof.
  unfold arrive. destruct (same_task c); [trivial|].
  unfold tidy at 1. destruct (pending p) as [|x [|y l]] eqn:E; [| |contradiction].
  - intros _. now rewrite (begin_task_empty _ p E).
  - intros Ht. rewrite (begin_task_single _ p x E Ht).
    now destruct (runs_before eager (call_time c) x).
Qed.

Lemma tidy_executed (a : A) (p : page (A:=A)) : tidy p -> tidy (executedFunction wait a p).
Proof. intros Hp. now rewrite (executed_tidy a p Hp). Qed.

Lemma tidy_history (l : list (call (A:=A))) (p : page (A:=A)) :
  tidy p -> tidy (history wait eager l p).
Proof.
  revert p. induction l as [|c l IH]; intros p Hp; [exact Hp|].
  cbn [history]. apply IH, tidy_executed, tidy_arrive, Hp.
Qed.

Lemma advance_leaves_none_due (t : N) (p : page (A:=A)) :
  tidy p -> Forall (fun x => t < due x) (pending (advance t p)).
Proof.
  unfold tidy. destruct (pending p) as [|x [|y l]] eqn:E; [| |contradiction].
  - intros _. rewrite (advance_empty t p E). constructor.
  - intros Ht. rewrite (advance_single t p x E Ht).
    destruct (N.leb_spec (due x) t); cbn [pending]; repeat constructor.
    assumption.
Qed.

(** X19.  [debounce] keeps at most one timer: after any history of calls
    of the debounced function, and after any further wait, at most one
    timer is pending, it is the one the variable [timeout] names, so that
    the next call cancels it, and it is not yet due: the event loop has
    run every timer that was. *)
Theorem single_pending_timer (l : list (call (A:=A))) (t : N) :
  tidy (history wait eager l fresh_page)
  /\ tidy (advance t (history wait eager l fresh_page))
  /\ (List.length (pending (advance t (history wait eager l fresh_page))) <= 1)%nat
  /\ Forall (fun x => t < due x)
       (pending (advance t (history wait eager l fresh_page))).
Proof.
  assert (Hh : tidy (history wait eager l (fresh_page (A:=A))))
    by (apply tidy_history; exact I).
  pose proof (tidy_advance t _ Hh) as Ha.
  split; [exact Hh|]. split; [exact Ha|].
  split; [|now apply advance_leaves_none_due].
  revert Ha. unfold tidy.
  destruct (pending (advance t (history wait eager l fresh_page)))
    as [|x [|y r]];
    cbn [List.length]; intros Ha; [clear; lia | clear; lia | contradiction].
Qed.




End DebounceProperties.

End Behaviour.

(** * The properties at concrete submissions *)

Section Witnesses.
Existing Instance natural_numbers.

Lemma post_not_options (b : value) : method (post b) <> lit "OPTIONS".
Proof. intros E. vm_compute in E. discriminate E. Defined.

Lemma sample_valid : valid_submission sample_submission.
Proof.
  split; [reflexivity|]. split; [reflexivity|].
  exists (lit "ann@example.com"). split; [reflexivity|].
  now apply emailRegex_spec.
Defined.

Lemma honeypot_short_circuit_witness :
  method robot_submission <> lit "OPTIONS"
  /\ truthy (submitted robot_submission (lit "honeypot")) = true
  /\ answered (handler (network granted accepted_mail) robot_submission) = Some 200
  /\ fetches (trace (handler (network granted accepted_mail) robot_submission)) = [].
Proof.
  split; [apply post_not_options|]. split; [reflexivity|].
  destruct (honeypot_short_circuit (network granted accepted_mail)
              robot_submission (post_not_options _) eq_refl) as (E & F & _).
  split; [|exact F]. unfold answered. now rewrite E.
Defined.

Lemma preflight_witness :
  method foreign_preflight = lit "OPTIONS"
  /\ method site_preflight = lit "OPTIONS"
  /\ res_headers_of (handler (network unreachable unreachable) foreign_preflight)
     = Some [ (lit "Access-Control-Allow-Origin",
               lit "https://meekertechnologies.com");
              (lit "Access-Control-Allow-Methods", lit "POST, OPTIONS");
              (lit "Access-Control-Allow-Headers", lit "Content-Type") ]
  /\ res_headers_of (handler (network unreachable unreachable) site_preflight)
     = Some [ (lit "Access-Control-Allow-Origin",
               lit "https://www.meekertechnologies.com");
              (lit "Access-Control-Allow-Methods", lit "POST, OPTIONS");
              (lit "Access-Control-Allow-Headers", lit "Content-Type") ]
  /\ answered (handler (network unreachable unreachable) foreign_preflight)
     = Some 204
  /\ fetches (trace (handler (network unreachable unreachable) foreign_preflight))
     = [].
Proof.
  split; [reflexivity|]. split; [reflexivity|].
  destruct (preflight (network unreachable unreachable) foreign_preflight eq_refl)
    as (o & E & _ & _ & Hdefault & F & _).
  destruct (preflight (network unreachable unreachable) site_preflight eq_refl)
    as (o' & E' & _ & Hreflect & _).
  assert (Ho : o = lit "https://meekertechnologies.com").
  { apply Hdefault. right. exists (lit "https://evil.example").
    split; [reflexivity|].
    intros [H|[H|[H|[]]]]; cbv in H; discriminate H. }
  assert (Ho' : o' = lit "https://www.meekertechnologies.com").
  { apply Hreflect; [reflexivity | right; left; reflexivity]. }
  subst o o'. unfold res_headers_of, answered. rewrite E, E'.
  repeat split.
Defined.

Lemma valid_submission_requests_witness :
  method sample_submission <> lit "OPTIONS"
  /\ valid_submission sample_submission
  /\ (exists subject html,
        fetches (trace (handler (network granted accepted_mail)
                          sample_submission))
        = [ token_request (network granted accepted_mail);
            mail_request (lit "t0k3n") default_mailbox default_mailbox
              subject html ])
  /\ fetches (trace (handler (network granted_opaque accepted_mail)
                       sample_submission))
     = [ token_request (network granted_opaque accepted_mail) ]
  /\ method unprintable_submission <> lit "OPTIONS"
  /\ valid_submission unprintable_submission
  /\ fetches (trace (handler (network granted accepted_mail)
                       unprintable_submission)) = []
  /\ answered (handler (network granted accepted_mail) unprintable_submission)
     = Some 500.
Proof.
  assert (Hv : valid_submission unprintable_submission).
  { split; [reflexivity|]. split; [reflexivity|].
    exists (lit "a@b.c"). split; [reflexivity|]. now apply emailRegex_spec. }
  split; [apply post_not_options|]. split; [apply sample_valid|].
  destruct (valid_submission_requests (network granted accepted_mail)
              sample_submission (post_not_options _) sample_valid)
    as (Hsent & _ & _).
  destruct (Hsent (str "t0k3n") (lit "t0k3n") eq_refl eq_refl eq_refl)
    as (it & n & e & c & i & m & _ & _ & _ & _ & _ & _ & F & _).
  split; [eexists; eexists; exact F|].
  destruct (valid_submission_requests (network granted_opaque accepted_mail)
              sample_submission (post_not_options _) sample_valid)
    as (_ & Halone & _).
  split.
  { apply Halone; [reflexivity|]. right.
    exists opaque_token, type_error. split; reflexivity. }
  split; [apply post_not_options|]. split; [exact Hv|].
  destruct (valid_submission_requests (network granted accepted_mail)
              unprintable_submission (post_not_options _) Hv)
    as (_ & _ & Hnone).
  apply Hnone. reflexivity.
Defined.

(** C2, the claim as stated fails: on a valid submission whose token
    request is refused, the handler sends the token request and no mail
    request, and answers 200. *)
Lemma valid_submission_without_mail_request :
  method sample_submission <> lit "OPTIONS"
  /\ valid_submission sample_submission
  /\ fetches (trace (handler (network (Ok refused) accepted_mail) sample_submission))
     = [ token_request (network (Ok refused) accepted_mail) ]
  /\ answered (handler (network (Ok refused) accepted_mail) sample_submission)
     = Some 200.
Proof.
  split; [apply post_not_options|]. split; [apply sample_valid|].
  split; reflexivity.
Qed.

Lemma delivery_failure_swallowed_witness :
  (method sample_submission <> lit "OPTIONS"
   /\ valid_submission sample_submission
   /\ In (token_request (network unreachable accepted_mail))
        (fetches (trace (handler (network unreachable accepted_mail)
                           sample_submission)))
   /\ throws (getAccessToken (network unreachable accepted_mail))
   /\ res_body_of (handler (network unreachable accepted_mail) sample_submission)
      = Some delayed_body)
  /\ ((exists q,
         In q (fetches (trace (handler (network granted (Ok refused))
                                 sample_submission)))
         /\ url q = graphUrl (senderEmail (network granted (Ok refused)))
         /\ fetch_fails (network granted (Ok refused)) q)
      /\ res_body_of (handler (network granted (Ok refused)) sample_submission)
         = Some delayed_body)
  /\ (outcome (getAccessToken (network granted_opaque accepted_mail))
      = Ok opaque_token
      /\ to_string opaque_token = Throw type_error
      /\ res_body_of (handler (network granted_opaque accepted_mail)
                        sample_submission)
         = Some delayed_body).
Proof.
  assert (H1 : In (token_request (network unreachable accepted_mail))
                 (fetches (trace (handler (network unreachable accepted_mail)
                                    sample_submission)))
               /\ throws (getAccessToken (network unreachable accepted_mail))).
  { split; [now left | eexists; reflexivity]. }
  assert (H2 : exists q,
             In q (fetches (trace (handler (network granted (Ok refused))
                                     sample_submission)))
             /\ url q = graphUrl (senderEmail (network granted (Ok refused)))
             /\ fetch_fails (network granted (Ok refused)) q).
  { eexists. split; [right; left; reflexivity|]. split; reflexivity. }
  split; [|split].
  - split; [apply post_not_options|]. split; [apply sample_valid|].
    split; [apply H1|]. split; [apply H1|].
    destruct (delivery_failure_swallowed (network unreachable accepted_mail)
                sample_submission (post_not_options _) sample_valid
                (or_introl H1)) as [E _].
    unfold res_body_of. now rewrite E.
  - split; [exact H2|].
    destruct (delivery_failure_swallowed (network granted (Ok refused))
                sample_submission (post_not_options _) sample_valid
                (or_intror (or_introl H2))) as [E _].
    unfold res_body_of. now rewrite E.
  - split; [reflexivity|]. split; [reflexivity|].
    destruct (delivery_failure_swallowed (network granted_opaque accepted_mail)
                sample_submission (post_not_options _) sample_valid) as [E _].
    { right. right. exists opaque_token. do 6 eexists.
      split; [reflexivity|]. split; [reflexivity|]. split; [reflexivity|].
      split; [reflexivity|]. split; [reflexivity|]. split; [reflexivity|].
      split; [reflexivity|]. exists type_error. reflexivity. }
    unfold res_body_of. now rewrite E.
Defined.

Lemma missing_field_rejected_witness :
  missing_required nameless_submission = true
  /\ answered (handler (network granted accepted_mail) nameless_submission)
     = Some 400
  /\ answered (contact_handler (network granted accepted_mail) nameless_submission)
     = Some 400.
Proof.
  split; [reflexivity|].
  destruct (missing_field_rejected (network granted accepted_mail)
              nameless_submission eq_refl) as [Hfull Hsimple].
  destruct (Hfull (post_not_options _) eq_refl) as [E _].
  unfold answered. now rewrite E, Hsimple.
Defined.

(** C4, the claim as stated fails: a submission without name, email and
    message whose honeypot is filled is answered with 200. *)
Lemma missing_field_accepted_with_honeypot :
  method robot_submission <> lit "OPTIONS"
  /\ missing_required robot_submission = true
  /\ answered (handler (network granted accepted_mail) robot_submission)
     = Some 200.
Proof.
  split; [apply post_not_options|]. split; reflexivity.
Qed.

Lemma misaddressed_no_pattern : ~ email_pattern (lit "ann at example.com").
Proof.
  intros P. apply emailRegex_spec in P. vm_compute in P. discriminate P.
Defined.

Lemma invalid_email_rejected_witness :
  method misaddressed_submission <> lit "OPTIONS"
  /\ truthy (submitted misaddressed_submission (lit "honeypot")) = false
  /\ missing_required misaddressed_submission = false
  /\ to_string (submitted misaddressed_submission (lit "email"))
     = Ok (lit "ann at example.com")
  /\ ~ email_pattern (lit "ann at example.com")
  /\ answered (handler (network granted accepted_mail) misaddressed_submission)
     = Some 400
  /\ fetches (trace (handler (network granted accepted_mail)
                       misaddressed_submission)) = []
  /\ truthy (submitted unaddressed_submission (lit "honeypot")) = false
  /\ missing_required unaddressed_submission = false
  /\ to_string (submitted unaddressed_submission (lit "email")) = Throw type_error
  /\ answered (handler (network granted accepted_mail) unaddressed_submission)
     = Some 500
  /\ outcome (contact_handler (network granted accepted_mail)
                unaddressed_submission) = Throw type_error.
Proof.
  split; [apply post_not_options|]. split; [reflexivity|].
  split; [reflexivity|]. split; [reflexivity|].
  split; [apply misaddressed_no_pattern|].
  destruct (invalid_email_rejected (network granted accepted_mail)
              misaddressed_submission (post_not_options _) eq_refl eq_refl)
    as [H400 _].
  destruct (H400 (lit "ann at example.com") eq_refl misaddressed_no_pattern)
    as (E & F & _).
  split; [unfold answered; now rewrite E|]. split; [exact F|].
  split; [reflexivity|]. split; [reflexivity|]. split; [reflexivity|].
  destruct (invalid_email_rejected (network granted accepted_mail)
              unaddressed_submission (post_not_options _) eq_refl eq_refl)
    as [_ H500].
  destruct (H500 type_error eq_refl) as (E' & _ & T).
  split; [unfold answered; now rewrite E' | exact T].
Defined.

(** C5, the claim as stated fails: a submission with name and message
    present and an empty honeypot, whose e-mail is an object with an own
    [toString], does not match the pattern, and the Graph-mail handler
    answers 500, not 400. *)
Lemma unconvertible_email_answered_500 :
  method unaddressed_submission <> lit "OPTIONS"
  /\ truthy (submitted unaddressed_submission (lit "honeypot")) = false
  /\ missing_required unaddressed_submission = false
  /\ ~ email_well_formed unaddressed_submission
  /\ answered (handler (network granted accepted_mail) unaddressed_submission)
     = Some 500.
Proof.
  split; [apply post_not_options|]. split; [reflexivity|].
  split; [reflexivity|]. split; [|reflexivity].
  intros (s & Hs & _). cbv in Hs. discriminate Hs.
Qed.

Lemma unexpected_exception_hidden_witness :
  method unprintable_submission <> lit "OPTIONS"
  /\ outcome (process (network granted accepted_mail) unprintable_submission
                (json_headers unprintable_submission)) = Throw type_error
  /\ answered (handler (network granted accepted_mail) unprintable_submission)
     = Some 500
  /\ res_body_of (handler (network granted accepted_mail) unprintable_submission)
     = Some (failure_body generic_error).
Proof.
  split; [apply post_not_options|]. split; [reflexivity|].
  destruct (unexpected_exception_hidden (network granted accepted_mail)
              unprintable_submission type_error (post_not_options _) eq_refl)
    as (E & _).
  unfold answered, res_body_of. now rewrite E.
Defined.

Lemma handlers_agree_witness :
  method sample_submission <> lit "OPTIONS"
  /\ truthy (submitted sample_submission (lit "honeypot")) = false
  /\ answered (handler (network granted accepted_mail) sample_submission)
     <> Some 500
  /\ answered (contact_handler (network granted accepted_mail) sample_submission)
     = answered (handler (network granted accepted_mail) sample_submission).
Proof.
  assert (H500 : answered (handler (network granted accepted_mail)
                             sample_submission) <> Some 500).
  { intros E. vm_compute in E. discriminate E. }
  split; [apply post_not_options|]. split; [reflexivity|].
  split; [exact H500|].
  exact (proj1 (handlers_agree (network granted accepted_mail)
                  sample_submission (post_not_options _) eq_refl H500)).
Defined.

(** C10, the claim as stated fails: on a submission whose name is an object
    with an own [toString], with an empty honeypot, the simple handler
    answers 200 and the Graph-mail handler answers 500. *)
Lemma handlers_disagree :
  method unprintable_submission <> lit "OPTIONS"
  /\ truthy (submitted unprintable_submission (lit "honeypot")) = false
  /\ answered (contact_handler (network granted accepted_mail)
                 unprintable_submission) = Some 200
  /\ answered (handler (network granted accepted_mail) unprintable_submission)
     = Some 500.
Proof.
  split; [apply post_not_options|]. repeat split.
Qed.

Lemma sample_readings :
  interests_text (submitted sample_submission (lit "interests"))
  = Ok (lit "AI, Cloud")
  /\ to_string (submitted sample_submission (lit "name")) = Ok (lit "Ann <Lee>")
  /\ to_string (submitted sample_submission (lit "email"))
     = Ok (lit "ann@example.com")
  /\ to_string (or_else (submitted sample_submission (lit "company")) not_provided)
     = Ok (lit "Lee & Co")
  /\ to_string (submitted sample_submission (lit "message"))
     = Ok (lit "Hello" ++ [c_nl] ++ lit "there").
Proof. repeat split. Defined.

Lemma delivered_run_witness :
  method sample_submission <> lit "OPTIONS"
  /\ valid_submission sample_submission
  /\ outcome (getAccessToken (network granted accepted_mail)) = Ok (str "t0k3n")
  /\ to_string (str "t0k3n") = Ok (lit "t0k3n")
  /\ ~ fetch_fails (network granted accepted_mail)
         (submission_mail (network granted accepted_mail) (lit "t0k3n")
            (lit "Ann <Lee>") (lit "ann@example.com") (lit "Lee & Co")
            (lit "AI, Cloud") (lit "Hello" ++ [c_nl] ++ lit "there"))
  /\ List.length (trace (handler (network granted accepted_mail)
                           sample_submission)) = 10%nat
  /\ answered (handler (network granted accepted_mail) sample_submission)
     = Some 200.
Proof.
  assert (Hok : ~ fetch_fails (network granted accepted_mail)
                    (submission_mail (network granted accepted_mail)
                       (lit "t0k3n") (lit "Ann <Lee>") (lit "ann@example.com")
                       (lit "Lee & Co") (lit "AI, Cloud")
                       (lit "Hello" ++ [c_nl] ++ lit "there"))).
  { intros F. cbv in F. discriminate F. }
  split; [apply post_not_options|]. split; [apply sample_valid|].
  split; [reflexivity|]. split; [reflexivity|]. split; [exact Hok|].
  destruct sample_readings as (Ei & En & Ee & Ec & Em).
  pose proof (delivered_run (network granted accepted_mail) sample_submission
                _ _ _ _ _ (str "t0k3n") (lit "t0k3n")
                (post_not_options _) sample_valid Ei En Ee Ec Em
                eq_refl eq_refl Hok) as E.
  unfold answered. rewrite E. split; reflexivity.
Defined.

Lemma token_refusal_logged_witness :
  method sample_submission <> lit "OPTIONS"
  /\ valid_submission sample_submission
  /\ fetch (network (Ok refused) accepted_mail)
       (token_request (network (Ok refused) accepted_mail)) = Ok refused
  /\ ok refused = false
  /\ text refused = Ok (lit "denied")
  /\ In (ELog [ LStr (lit "Email sending failed:");
                LStr (lit "Failed to get access token: 401 - denied") ])
       (trace (handler (network (Ok refused) accepted_mail) sample_submission))
  /\ res_body_of (handler (network (Ok refused) accepted_mail) sample_submission)
     = Some delayed_body.
Proof.
  split; [apply post_not_options|]. split; [apply sample_valid|].
  split; [reflexivity|]. split; [reflexivity|]. split; [reflexivity|].
  destruct sample_readings as (Ei & En & Ee & Ec & Em).
  pose proof (token_refusal_logged (network (Ok refused) accepted_mail)
                sample_submission _ _ _ _ _ refused (lit "denied")
                (post_not_options _) sample_valid Ei En Ee Ec Em
                eq_refl eq_refl eq_refl) as E.
  unfold res_body_of. rewrite E. split; [|reflexivity].
  cbn [trace fst]. right. apply in_or_app. right. right. left. reflexivity.
Defined.

Lemma missing_token_still_sent_witness :
  method sample_submission <> lit "OPTIONS"
  /\ valid_submission sample_submission
  /\ fetch (network (Ok (ok_response (obj []))) accepted_mail)
       (token_request (network (Ok (ok_response (obj []))) accepted_mail))
     = Ok (ok_response (obj []))
  /\ ok (ok_response (obj [])) = true
  /\ json (ok_response (obj [])) = Ok (JObj [])
  /\ lookup (lit "access_token") [] = None
  /\ List.length
       (fetches (trace (handler (network (Ok (ok_response (obj []))) accepted_mail)
                          sample_submission))) = 2%nat.
Proof.
  split; [apply post_not_options|]. split; [apply sample_valid|].
  split; [reflexivity|]. split; [reflexivity|]. split; [reflexivity|].
  split; [reflexivity|].
  destruct sample_readings as (Ei & En & Ee & Ec & Em).
  destruct (missing_token_still_sent
              (network (Ok (ok_response (obj []))) accepted_mail)
              sample_submission _ _ _ _ _ (ok_response (obj [])) []
              (post_not_options _) sample_valid Ei En Ee Ec Em
              eq_refl eq_refl eq_refl eq_refl) as [E _].
  now rewrite E.
Defined.

Lemma status_table_witness :
  method unprintable_submission <> lit "OPTIONS"
  /\ answered (handler (network granted accepted_mail) unprintable_submission)
     = Some 500
  /\ answered (handler (network granted accepted_mail) nameless_submission)
     = Some 400.
Proof.
  split; [apply post_not_options|]. split.
  - apply (status_table (network granted accepted_mail) unprintable_submission
             (post_not_options _)).
    split; [reflexivity|]. split; [reflexivity|]. split; [|reflexivity].
    intros (s & Hs & Hn). apply Hn. cbv in Hs. injection Hs as <-.
    now apply emailRegex_spec.
  - apply (status_table (network granted accepted_mail) nameless_submission
             (post_not_options _)).
    split; [reflexivity|]. now left.
Defined.

Lemma success_flag_witness :
  method misaddressed_submission <> lit "OPTIONS"
  /\ exists r b,
       outcome (handler (network granted accepted_mail) misaddressed_submission)
       = Ok r
       /\ res_body r = Some b
       /\ get b (lit "success") = JBool (status r =? 200).
Proof.
  split; [apply post_not_options|].
  destruct (success_flag (network granted accepted_mail) misaddressed_submission
              (post_not_options _)) as (r & b & Hr & _ & Hb & Hs & _).
  now exists r, b.
Defined.

Lemma allowed_origin_reflected_witness :
  origin site_submission = Some (lit "https://www.meekertechnologies.com")
  /\ In (lit "https://www.meekertechnologies.com") allowedOrigins
  /\ exists r,
       outcome (handler (network granted accepted_mail) site_submission) = Ok r
       /\ header (lit "Access-Control-Allow-Origin") (res_headers r)
          = Some (lit "https://www.meekertechnologies.com").
Proof.
  assert (Hin : In (lit "https://www.meekertechnologies.com") allowedOrigins)
    by (right; left; reflexivity).
  split; [reflexivity|]. split; [exact Hin|].
  destruct (allowed_origin_reflected (network granted accepted_mail)
              site_submission _ eq_refl Hin) as (r & Hr & Ho & _).
  now exists r.
Defined.

Lemma escapeHtml_injective_witness :
  escapeHtml (JStr (lit "<b>")) = escapeHtml (str "<b>")
  /\ lit "<b>" = lit "<b>".
Proof.
  split; [reflexivity|].
  exact (escapeHtml_injective (lit "<b>") (lit "<b>") eq_refl).
Defined.

Example encoded_component_safe_example :
  code_units (lit "a b&c")
  /\ encodeURIComponent (lit "a b&c") = Ok (lit "a%20b%26c")
  /\ ~ In 38 (lit "a%20b%26c").
Proof.
  split; [apply code_units_lit|]. split; [reflexivity|].
  destruct (encoded_component_safe (lit "a b&c") (lit "a%20b%26c")
              (code_units_lit _) eq_refl) as [_ Hn].
  now inversion Hn.
Defined.

Lemma submit_fallback_witness :
  truthy (entry (form_website sample_form)) = false
  /\ ~ In ResetForm (fst (submit failing_server sample_form))
  /\ List.length (navigations (fst (submit failing_server sample_form))) = 1%nat.
Proof.
  split; [reflexivity|].
  destruct (submit_fallback failing_server sample_form eq_refl) as [Hr Hn].
  split.
  - intros Hin. apply Hr in Hin. discriminate Hin.
  - rewrite Hn. reflexivity.
Defined.

Lemma submit_button_witness :
  truthy (entry (form_website sample_form)) = false
  /\ disablings (fst (submit failing_server sample_form)) = [true; false].
Proof.
  split; [reflexivity|].
  pose proof (submit_button failing_server sample_form eq_refl) as Hb.
  destruct (snd (submit failing_server sample_form)) as [u|e] eqn:E.
  - apply Hb.
  - cbv in E. discriminate E.
Defined.

Lemma sample_form_units : form_code_units sample_form.
Proof.
  repeat split; try apply code_units_lit; try constructor;
    repeat constructor; apply code_units_lit.
Defined.

Lemma mailto_shape_witness :
  form_code_units sample_form
  /\ exists href,
       mailto (form_data sample_form) = Ok href
       /\ @count_occ char N.eq_dec href 38 = 1%nat.
Proof.
  split; [apply sample_form_units|].
  destruct (mailto (form_data sample_form)) as [href|e] eqn:E.
  - exists href. split; [reflexivity|].
    destruct (mailto_shape sample_form href sample_form_units E)
      as (s & b & _ & _ & _ & _ & Hamp).
    exact Hamp.
  - cbv in E. discriminate E.
Defined.

Lemma form_data_served_witness :
  method (post (form_data sample_form)) <> lit "OPTIONS"
  /\ body (post (form_data sample_form)) = form_data sample_form
  /\ answered (contact_handler (network granted accepted_mail)
                 (post (form_data sample_form)))
     = answered (handler (network granted accepted_mail)
                   (post (form_data sample_form))).
Proof.
  split; [apply post_not_options|]. split; [reflexivity|].
  apply (form_data_served (network granted accepted_mail) sample_form
           (post (form_data sample_form)) (post_not_options _) eq_refl).
Defined.

Lemma email_check_shape_witness :
  to_string (str "a@b.c") = Ok (lit "a@b.c")
  /\ regex_test emailRegex (str "a@b.c") = Ok true
  /\ @count_occ char N.eq_dec (lit "a@b.c") c_at = 1%nat.
Proof.
  split; [reflexivity|]. split; [reflexivity|].
  destruct (email_check_shape (str "a@b.c") (lit "a@b.c") eq_refl)
    as [Hiff Hshape].
  apply Hshape, Hiff. reflexivity.
Defined.


(** Two calls in one task with no delay: only the second reaches [func]. *)
Example debounce_same_task :
  calls (advance 0
           (history 0 (fun _ => true)
              [ {| call_time := 0; call_args := 1; same_task := false |};
                {| call_time := 0; call_args := 2; same_task := true |} ]
              fresh_page))
  = [2].
Proof. reflexivity. Qed.

(** A delay that does not fit a signed 32-bit integer is no delay. *)
Example debounce_delay_overflow :
  delay 2147483648 = 0
  /\ calls (advance 0
              (history 2147483648 (fun _ => true)
                 [ {| call_time := 0; call_args := 1; same_task := false |} ]
                 fresh_page))
     = [1].
Proof. split; reflexivity. Qed.

Lemma mail_refusal_logged_witness :
  method sample_submission <> lit "OPTIONS"
  /\ valid_submission sample_submission
  /\ outcome (getAccessToken (network granted (Ok refused))) = Ok (str "t0k3n")
  /\ to_string (str "t0k3n") = Ok (lit "t0k3n")
  /\ fetch (network granted (Ok refused))
       (submission_mail (network granted (Ok refused)) (lit "t0k3n")
          (lit "Ann <Lee>") (lit "ann@example.com") (lit "Lee & Co")
          (lit "AI, Cloud") (lit "Hello" ++ [c_nl] ++ lit "there"))
     = Ok refused
  /\ ok refused = false
  /\ text refused = Ok (lit "denied")
  /\ In (ELog [ LStr (lit "Email sending failed:");
                LStr (lit "Failed to send email: 401 - denied") ])
       (trace (handler (network granted (Ok refused)) sample_submission))
  /\ res_body_of (handler (network granted (Ok refused)) sample_submission)
     = Some delayed_body.
Proof.
  split; [apply post_not_options|]. split; [apply sample_valid|].
  split; [reflexivity|]. split; [reflexivity|]. split; [reflexivity|].
  split; [reflexivity|]. split; [reflexivity|].
  destruct sample_readings as (Ei & En & Ee & Ec & Em).
  pose proof (mail_refusal_logged (network granted (Ok refused))
                sample_submission _ _ _ _ _ (str "t0k3n") (lit "t0k3n")
                refused (lit "denied")
                (post_not_options _) sample_valid Ei En Ee Ec Em
                eq_refl eq_refl eq_refl eq_refl eq_refl) as E.
  unfold res_body_of. rewrite E. split; [|reflexivity].
  cbn [trace fst]. right. apply in_or_app. right. right. right. left.
  reflexivity.
Defined.

End Witnesses.
